(** * Nutricook: the scoring, rule and parsing core of [app.py], and the
    two writes of [database.py] the meal checker performs.

  Python strings are modelled as [string]: sequences of code points below
  256 (the Latin-1 range), on which [str.lower], [str.strip], [str.isspace]
  and the regular-expression classes used by the source are written out
  exactly.  Python integers are [Z]; nutrient amounts, which may be ints or
  floats, are rationals [Q]; dictionaries are [gmap]s keyed by strings. *)

From Stdlib Require Import ZArith QArith Ascii String List Bool Lia.
From stdpp Require Import gmap strings list fin_maps.

Local Open Scope string_scope.
Local Open Scope bool_scope.

#[local] Arguments String.append !_ _ : simpl nomatch.

(** ** Python's built-in string operations *)

Module PyStr.

(** The code point of a character. *)
Definition code (c : ascii) : N := N_of_ascii c.

Definition between (lo hi n : N) : bool := (lo <=? n)%N && (n <=? hi)%N.

(** [str.isspace] on one character; also the class [\s] of [re] on [str]
    patterns.  Below 256 the white-space code points are 9..13, 28..32,
    133 and 160. *)
Definition isspace (c : ascii) : bool :=
  let n := code c in
  between 9 13 n || between 28 32 n || (n =? 133)%N || (n =? 160)%N.

(** Upper-case letters below 256: A..Z and the Latin-1 capitals 192..222
    without the multiplication sign 215. *)
Definition isupper (c : ascii) : bool :=
  let n := code c in
  between 65 90 n || (between 192 222 n && negb (n =? 215)%N).

Definition lower_char (c : ascii) : ascii :=
  if isupper c then ascii_of_N (code c + 32) else c.

(** [s.lower()] on code points below 256, where it maps one code point to
    one code point.  Python lower-cases U+0130 into two code points;
    module [wide] below adds that code point for the Score Calculator. *)
Fixpoint lower (s : string) : string :=
  match s with
  | EmptyString => EmptyString
  | String c s' => String (lower_char c) (lower s')
  end.

(** [len(s)] *)
Definition len (s : string) : Z := Z.of_nat (String.length s).

(** Truth value of a string: [bool(s)]. *)
Definition truthy (s : string) : bool :=
  match s with EmptyString => false | String _ _ => true end.

(** [s.startswith(p)] *)
Fixpoint startswith (p s : string) : bool :=
  match p, s with
  | EmptyString, _ => true
  | String a p', String b s' => Ascii.eqb a b && startswith p' s'
  | String _ _, EmptyString => false
  end.

(** [p in s] *)
Fixpoint contains (p s : string) : bool :=
  startswith p s ||
  match s with
  | EmptyString => false
  | String _ s' => contains p s'
  end.

(** [s[n:]] for [0 <= n] *)
Fixpoint drop (n : nat) (s : string) : string :=
  match n, s with
  | O, _ => s
  | S n', String _ s' => drop n' s'
  | S _, EmptyString => EmptyString
  end.

(** [s.lstrip()]: white space removed on the left. *)
Fixpoint lstrip (s : string) : string :=
  match s with
  | EmptyString => EmptyString
  | String c s' => if isspace c then lstrip s' else s
  end.

(** [s.rstrip()]: white space removed on the right. *)
Fixpoint rstrip (s : string) : string :=
  match s with
  | EmptyString => EmptyString
  | String c s' =>
      match rstrip s' with
      | EmptyString => if isspace c then EmptyString else String c EmptyString
      | r => String c r
      end
  end.

(** [s.strip()] *)
Definition strip (s : string) : string := rstrip (lstrip s).

(** [c in chars] for a character. *)
Fixpoint mem_char (c : ascii) (chars : string) : bool :=
  match chars with
  | EmptyString => false
  | String d chars' => Ascii.eqb c d || mem_char c chars'
  end.

(** [s.lstrip(chars)]: leading characters of the set [chars] removed. *)
Fixpoint lstrip_chars (chars s : string) : string :=
  match s with
  | EmptyString => EmptyString
  | String c s' => if mem_char c chars then lstrip_chars chars s' else s
  end.

Definition newline : ascii := ascii_of_N 10.
Definition nl : string := String newline EmptyString.

(** [s.split] at line feeds: always at least one piece. *)
Fixpoint split_nl (s : string) : list string :=
  match s with
  | EmptyString => [EmptyString]
  | String c s' =>
      if Ascii.eqb c newline then EmptyString :: split_nl s'
      else match split_nl s' with
           | [] => [String c EmptyString]
           | w :: ws => String c w :: ws
           end
  end.

(** [join] with a line feed as separator. *)
Fixpoint join_nl (l : list string) : string :=
  match l with
  | [] => EmptyString
  | [w] => w
  | w :: ws => w ++ nl ++ join_nl ws
  end.

(** [s.replace]: every space becomes a plus sign. *)
Fixpoint replace_space_plus (s : string) : string :=
  match s with
  | EmptyString => EmptyString
  | String c s' =>
      String (if Ascii.eqb c " " then "+"%char else c) (replace_space_plus s')
  end.

(** [s.rsplit(sep, 1)]: the text cut at the last [sep], or [s] alone when
    [sep] does not occur. *)
Fixpoint rsplit1 (sep : ascii) (s : string) : list string :=
  match s with
  | EmptyString => [EmptyString]
  | String c s' =>
      match rsplit1 sep s' with
      | [a; b] => [String c a; b]
      | _ => if Ascii.eqb c sep then [EmptyString; s'] else [String c s']
      end
  end.

End PyStr.

(** ** The fragments of [re] the source's patterns use

  All patterns of the source are compiled with [re.IGNORECASE]; below 256 a
  pattern character matches a text character exactly when their lower-case
  forms coincide. *)

Module PyRe.
Import PyStr.

Definition ieq (p c : ascii) : bool := Ascii.eqb (lower_char p) (lower_char c).

(** A literal of the pattern matched at the head of [s], ignoring case:
    the text that follows it, or [None]. *)
Fixpoint imatch (p s : string) : option string :=
  match p, s with
  | EmptyString, _ => Some s
  | String a p', String b s' => if ieq a b then imatch p' s' else None
  | String _ _, EmptyString => None
  end.

(** [\s*], greedy.  Every use in the source is followed by a literal that
    starts with a character outside [\s] or by a part that cannot fail, so
    backtracking into it never changes a match. *)
Definition skip_ws (s : string) : string := lstrip s.

(** [\n*], greedy. *)
Fixpoint skip_nl (s : string) : string :=
  match s with
  | String c s' => if Ascii.eqb c newline then skip_nl s' else s
  | EmptyString => EmptyString
  end.

(** The group [.*] without [re.DOTALL]: the text up to the next line feed. *)
Fixpoint dot_star (s : string) : string :=
  match s with
  | EmptyString => EmptyString
  | String c s' => if Ascii.eqb c newline then EmptyString else String c (dot_star s')
  end.

(** [re.search] of a pattern that starts with the literal [h] and whose
    remaining parts always match: the text after the first place where
    [h] matches. *)
Fixpoint search_after (h s : string) : option string :=
  match imatch h s with
  | Some r => Some r
  | None =>
      match s with
      | EmptyString => None
      | String _ s' => search_after h s'
      end
  end.

(** The lazy group [.*?] before the look-ahead [(?=stop|\Z)], with
    [re.DOTALL]: the shortest text after which
    the literal [stop] matches or the string ends. *)
Fixpoint lazy_until (stop s : string) : string :=
  match s with
  | EmptyString => EmptyString
  | String c s' =>
      match imatch stop s with
      | Some _ => EmptyString
      | None => String c (lazy_until stop s')
      end
  end.

(** [---\s*WORD\s*---] matched at the head of [s]. *)
Definition marker (word s : string) : option string :=
  match imatch "---" s with
  | None => None
  | Some r1 =>
      match imatch word (skip_ws r1) with
      | None => None
      | Some r2 => imatch "---" (skip_ws r2)
      end
  end.

(** The lazy group [.*?] with [re.DOTALL] followed by the end marker: the
    shortest body
    after which [--- RECIPE END ---] matches, and the text after that
    marker. *)
Fixpoint lazy_body (s : string) : option (string * string) :=
  match marker "RECIPE END" s with
  | Some rest => Some (EmptyString, rest)
  | None =>
      match s with
      | EmptyString => None
      | String c s' =>
          match lazy_body s' with
          | Some (g, rest) => Some (String c g, rest)
          | None => None
          end
      end
  end.

(** One match of
    [---\s*RECIPE START\s*---(.*?)---\s*RECIPE END\s*---] at the head of
    [s]: its group and the text after the match. *)
Definition recipe_match (s : string) : option (string * string) :=
  match marker "RECIPE START" s with
  | None => None
  | Some body => lazy_body body
  end.

(** [pattern.findall(s)]: the groups of the successive non-overlapping
    matches, scanning from the left.  [fuel] bounds the number of scan
    steps; each step consumes at least one character. *)
Fixpoint findall_from (fuel : nat) (s : string) : list string :=
  match fuel with
  | O => []
  | S fuel' =>
      match recipe_match s with
      | Some (g, rest) => g :: findall_from fuel' rest
      | None =>
          match s with
          | EmptyString => []
          | String _ s' => findall_from fuel' s'
          end
      end
  end.

Definition findall (s : string) : list string :=
  findall_from (String.length s) s.

End PyRe.

(** ** [urllib.parse.quote_plus] *)

Module urllib_parse.
Import PyStr.

Definition hexdigit (n : N) : ascii :=
  match String.get (N.to_nat n) "0123456789ABCDEF" with
  | Some c => c
  | None => "0"%char
  end.

(** One byte as a percent sign and two upper-case hexadecimal digits. *)
Definition percent (b : N) : string :=
  String "%"%char (String (hexdigit (b / 16)) (String (hexdigit (b mod 16)) EmptyString)).

(** The UTF-8 encoding of a code point below 256. *)
Definition utf8 (c : ascii) : list N :=
  let n := code c in
  if (n <? 128)%N then [n] else [(192 + n / 64)%N; (128 + n mod 64)%N].

(** The characters [quote] never escapes. *)
Definition always_safe (c : ascii) : bool :=
  let n := code c in
  between 65 90 n || between 97 122 n || between 48 57 n ||
  mem_char c "_.-~".

Definition quote_char (safe : string) (c : ascii) : string :=
  if always_safe c || mem_char c safe then String c EmptyString
  else String.concat EmptyString (percent <$> utf8 c).

Fixpoint quote (safe s : string) : string :=
  match s with
  | EmptyString => EmptyString
  | String c s' => quote_char safe c ++ quote safe s'
  end.

Definition quote_plus (s : string) : string :=
  if contains " " s then replace_space_plus (quote " " s) else quote "" s.

End urllib_parse.

(** ** [database.py]: the two tables and the two writes of the meal checker *)

Module database.

(** A row of the table [users]. *)
Record user := {
  username : string;
  password_hash : string;
  age : option Z;
  health_conditions : option string;
  total_health_score : Z
}.

(** A row of the table [checked_meals]; rows are kept in insertion order. *)
Record checked_meal := {
  user_id : Z;
  checked_at : Z;
  meal_name : string;
  estimated_nutrition : string;
  health_assessment : string;
  assigned_score : Z;
  image_filename : option string
}.

Record db := {
  users : gmap Z user;
  checked_meals : list checked_meal
}.

(** What [sqlite3] does with a statement: it commits, or raises
    [sqlite3.Error], which both functions catch and turn into [False]. *)
Inductive outcome := Commit | SqliteError.

Definition add_points (points_to_add : Z) (u : user) : user :=
  {| username := username u;
     password_hash := password_hash u;
     age := age u;
     health_conditions := health_conditions u;
     total_health_score := total_health_score u + points_to_add |}.

(** [UPDATE users SET total_health_score = total_health_score + ?
     WHERE id = ?].  The sum is the one SQLite stores as long as it stays
    within the signed 64-bit range of the INTEGER column. *)
Definition update_user_score (o : outcome) (uid : Z) (points_to_add : Z)
    (d : db) : db * bool :=
  match o with
  | Commit =>
      ({| users := alter (add_points points_to_add) uid (users d);
          checked_meals := checked_meals d |}, true)
  | SqliteError => (d, false)
  end.

(** [INSERT INTO checked_meals (...) VALUES (...)], stamped with
    [datetime.datetime.now()], here [now]. *)
Definition add_checked_meal (o : outcome) (now : Z) (uid : Z)
    (name nutrition assessment : string) (score : Z)
    (image : option string) (d : db) : db * bool :=
  match o with
  | Commit =>
      ({| users := users d;
          checked_meals := (checked_meals d ++
            [{| user_id := uid; checked_at := now; meal_name := name;
                estimated_nutrition := nutrition;
                health_assessment := assessment;
                assigned_score := score; image_filename := image |}])%list |},
       true)
  | SqliteError => (d, false)
  end.

(** [SELECT * FROM users WHERE id = ?], [fetchone]; a [sqlite3.Error] is
    caught and answered by [None], as if there were no row. *)
Definition get_user_by_id (o : outcome) (d : db) (uid : Z) : option user :=
  match o with
  | Commit => users d !! uid
  | SqliteError => None
  end.

Definition has_name (name : string) (row : Z * user) : bool :=
  String.eqb (username (snd row)) name.

(** [SELECT * FROM users WHERE username = ?], [fetchone]: a row with that
    username, with its id; a [sqlite3.Error] is caught and answered by
    [None], as if there were no row. *)
Definition get_user_by_username (o : outcome) (d : db) (name : string)
    : option (Z * user) :=
  match o with
  | Commit => List.find (has_name name) (map_to_list (users d))
  | SqliteError => None
  end.

(** [add_user].  The password is encoded and hashed before the [try]:
    [hashing] is what the lines before the [try] give, the hash of
    [bcrypt.hashpw] or [None] when one of them raises, and then the
    exception leaves the function (the result [None]).  Inside the [try], [INSERT INTO users (username,
    password_hash, age, health_conditions)]: [rowid] is the id SQLite gives
    the new row and total_health_score takes its default 0.  The UNIQUE
    constraint on username raises [sqlite3.IntegrityError], which is caught
    and answered by [False], like any other [sqlite3.Error]. *)
Definition add_user (hashing : option string) (o : outcome) (rowid : Z)
    (name : string) (user_age : option Z) (conditions : option string)
    (d : db) : option (db * bool) :=
  match hashing with
  | None => None
  | Some hashed =>
      Some
        match o with
        | Commit =>
            if existsb (has_name name) (map_to_list (users d)) then (d, false)
            else
              ({| users := <[rowid :=
                               {| username := name; password_hash := hashed;
                                  age := user_age; health_conditions := conditions;
                                  total_health_score := 0 |}]> (users d);
                  checked_meals := checked_meals d |}, true)
        | SqliteError => (d, false)
        end
  end.

End database.

(** ** [app.py] *)

Module app.
Import PyStr PyRe.

(** *** Score Calculator *)

(** The total before the default is applied: the six [if] statements in
    order. *)
Definition keyword_total (text : string) : Z :=
  let score := 0%Z in
  let score :=
    if contains "healthy" text || contains "good choice" text
       || contains "well-balanced" text
    then (score + 5)%Z else score in
  let score :=
    if contains "low sugar" text || contains "low fat" text
       || contains "low sodium" text
    then (score + 2)%Z else score in
  let score :=
    if contains "high fiber" text || contains "good source of protein" text
    then (score + 3)%Z else score in
  let score :=
    if contains "high sugar" text || contains "high fat" text
       || contains "high sodium" text || contains "unhealthy" text
    then (score - 4)%Z else score in
  let score :=
    if contains "low protein" text || contains "low fiber" text
    then (score - 1)%Z else score in
  let score :=
    if contains "be cautious" text || contains "consider alternatives" text
    then (score - 2)%Z else score in
  score.

Definition calculate_meal_score (assessment_text : string) : Z :=
  let text := lower assessment_text in
  let score := keyword_total text in
  if (score =? 0)%Z && (10 <? len text)%Z then 1%Z else score.

(** *** Rule engine *)

(** The values a profile dictionary holds. *)
Inductive value :=
| VNone
| VInt (z : Z)
| VStr (s : string).

(** [d.get(key, 0)] on a nutrient dictionary. *)
Definition get0 (d : gmap string Q) (key : string) : Q :=
  default (0 : Q) (d !! key).

(** [x > n] on numbers. *)
Definition gt (x : Q) (n : Z) : bool := negb (Qle_bool x (inject_Z n)).

(** The lower-cased [health_conditions] of the profile, the empty string
    when the key is absent; [None] stands
    for the [AttributeError] raised when the stored value is no string. *)
Definition conditions_of (user_profile : gmap string value) : option string :=
  match user_profile !! "health_conditions" with
  | None => Some (lower "")
  | Some (VStr s) => Some (lower s)
  | Some _ => None
  end.

Definition rules (estimated_nutrition : gmap string Q) (conditions : string)
    : list string * Z :=
  let notes : list string := [] in
  let score_adjustment := 0%Z in
  let estimated_sugar := get0 estimated_nutrition "sugar" in
  let '(notes, score_adjustment) :=
    if contains "diabetes" conditions && gt estimated_sugar 25
    then ((notes ++ ["High estimated sugar content; may need caution for diabetes management."])%list,
          (score_adjustment - 3)%Z)
    else (notes, score_adjustment) in
  let estimated_sodium := get0 estimated_nutrition "sodium" in
  let '(notes, score_adjustment) :=
    if contains "hypertension" conditions && gt estimated_sodium 800
    then ((notes ++ ["High estimated sodium content; consider for hypertension."])%list,
          (score_adjustment - 2)%Z)
    else (notes, score_adjustment) in
  let '(notes, score_adjustment) :=
    if gt (get0 estimated_nutrition "fat") 35
    then ((notes ++ ["This meal appears relatively high in fat."])%list,
          (score_adjustment - 1)%Z)
    else (notes, score_adjustment) in
  let '(notes, score_adjustment) :=
    if gt (get0 estimated_nutrition "fiber") 7
    then ((notes ++ ["Good source of dietary fiber."])%list, (score_adjustment + 2)%Z)
    else (notes, score_adjustment) in
  let '(notes, score_adjustment) :=
    if gt (get0 estimated_nutrition "protein") 30
    then ((notes ++ ["High protein content."])%list, (score_adjustment + 1)%Z)
    else (notes, score_adjustment) in
  (notes, score_adjustment).

Definition apply_rule_engine (estimated_nutrition : gmap string Q)
    (user_profile : gmap string value) : option (list string * Z) :=
  match conditions_of user_profile with
  | None => None
  | Some conditions => Some (rules estimated_nutrition conditions)
  end.


(** *** Recipe parser *)

(** [key_map], in insertion order. *)
Definition key_map : list (string * string) :=
  [ ("meal name", "name");
    ("youtube search terms", "youtube_search_terms");
    ("preparation time", "prep_time");
    ("taste profile", "taste");
    ("ingredients", "ingredients");
    ("instructions", "instructions");
    ("estimated nutrition", "nutrition") ].

(** The variables of the loop over the lines of one block. *)
Record scan := {
  recipe_data : gmap string string;
  current_key : option string;
  current_value : list string
}.

(** [if current_key:] *)
Definition key_set (k : option string) : bool :=
  match k with
  | Some k => truthy k
  | None => false
  end.

(** [if current_key:] store the joined and stripped [current_value] under
    [current_key]. *)
Definition flush (st : scan) : gmap string string :=
  match current_key st with
  | Some k =>
      if truthy k then <[k := strip (join_nl (current_value st))]> (recipe_data st)
      else recipe_data st
  | None => recipe_data st
  end.

(** The inner [for ... in key_map.items()] with its [break]: the first
    label the line starts with. *)
Fixpoint find_key (line : string) (km : list (string * string))
    : option (string * string) :=
  match km with
  | [] => None
  | (key_text, key_json) :: km' =>
      if startswith (key_text ++ ":") (lower line) then Some (key_text, key_json)
      else find_key line km'
  end.

(** One turn of the loop over the lines. *)
Definition scan_line (st : scan) (line : string) : scan :=
  let line := strip line in
  if negb (truthy line) then st
  else
    match find_key line key_map with
    | Some (key_text, key_json) =>
        {| recipe_data := flush st;
           current_key := Some key_json;
           current_value := [strip (drop (String.length key_text + 1) line)] |}
    | None =>
        if key_set (current_key st)
        then {| recipe_data := recipe_data st;
                current_key := current_key st;
                current_value := (current_value st ++ [line])%list |}
        else st
    end.

(** The fields accumulated from one block: the loop, then the last
    flush. *)
Definition scan_block (block : string) : gmap string string :=
  let lines := split_nl (strip block) in
  flush (fold_left scan_line lines
           {| recipe_data := ∅; current_key := None; current_value := [] |}).

(** Truth value of [recipe_data.get(key)]. *)
Definition has (d : gmap string string) (key : string) : bool :=
  match d !! key with
  | Some v => truthy v
  | None => false
  end.

(** The condition under which a block is appended to [recipes]. *)
Definition accepted (d : gmap string string) : bool :=
  has d "name" && (has d "ingredients" || has d "instructions").

(** The cleaned lines of a field: each line of [v.split] stripped, then
    left-stripped of [chars], the results joined by line feeds. *)
Definition clean_lines (chars v : string) : string :=
  join_nl ((fun l => lstrip_chars chars (strip l)) <$> split_nl v).

Definition clean_field (key chars : string) (d : gmap string string)
    : gmap string string :=
  if has d key then <[key := clean_lines chars (default "" (d !! key))]> d
  else d.

Definition add_search_url (d : gmap string string) : gmap string string :=
  match d !! "youtube_search_terms" with
  | Some search_terms =>
      if truthy search_terms
      then <["youtube_search_url" :=
               "https://www.youtube.com/results?search_query="
               ++ urllib_parse.quote_plus search_terms]> d
      else d
  | None => d
  end.

(** The body of the [if] that accepts a block. *)
Definition post_process (d : gmap string string) : gmap string string :=
  add_search_url
    (clean_field "instructions" "0123456789.* "
       (clean_field "ingredients" "-* " d)).

(** One turn of the loop over the matches. *)
Definition add_block (recipes : list (gmap string string)) (block : string)
    : list (gmap string string) :=
  let recipe_data := scan_block block in
  if accepted recipe_data then (recipes ++ [post_process recipe_data])%list
  else recipes.

(** [recipes] when the loop over the matches ends. *)
Definition parsed_recipes (text_response : string) : list (gmap string string) :=
  fold_left add_block (findall text_response) [].

Definition fallback_name : string := "Recipe Details (Parsing Failed)".

Definition fallback_record (text_response : string) : gmap string string :=
  <["name" := fallback_name]> (<["instructions" := text_response]> ∅).

Definition parse_multi_recipes (text_response : string)
    : list (gmap string string) :=
  let recipes := parsed_recipes text_response in
  if negb (match recipes with [] => false | _ :: _ => true end)
     && (50 <? len text_response)%Z
  then [fallback_record text_response]
  else recipes.

(** *** Meal checker: parse, score and log *)

Definition meal_name_placeholder : string := "Unknown Meal (Parsing Failed)".
Definition nutrition_placeholder : string := "Nutrition info could not be extracted.".
Definition assessment_placeholder : string := "Assessment could not be extracted.".

Definition meal_heading : string := "## Meal Name".
Definition nutrition_heading : string := "## Estimated Nutrition".
Definition assessment_heading : string := "## Healthiness Assessment".

(** Group 1 of the search for [## Meal Name\s*\n*] followed by the group
    [.*], with [re.IGNORECASE] alone. *)
Definition meal_name_match (analysis_result : string) : option string :=
  match search_after meal_heading analysis_result with
  | Some r => Some (dot_star (skip_nl (skip_ws r)))
  | None => None
  end.

(** Group 1 of the search for
    [## Estimated Nutrition\s*\n*(.*?)(?=\n## Healthiness Assessment|\Z)]. *)
Definition nutrition_match (analysis_result : string) : option string :=
  match search_after nutrition_heading analysis_result with
  | Some r => Some (lazy_until (nl ++ assessment_heading) (skip_nl (skip_ws r)))
  | None => None
  end.

(** Group 1 of the search for [## Healthiness Assessment\s*\n*] followed
    by the group [.*], with [re.DOTALL]: all the remaining text. *)
Definition assessment_match (analysis_result : string) : option string :=
  match search_after assessment_heading analysis_result with
  | Some r => Some (skip_nl (skip_ws r))
  | None => None
  end.

Definition group_or (m : option string) (placeholder : string) : string :=
  match m with
  | Some g => strip g
  | None => placeholder
  end.

Definition meal_name_of (analysis_result : string) : string :=
  group_or (meal_name_match analysis_result) meal_name_placeholder.
Definition nutrition_text_of (analysis_result : string) : string :=
  group_or (nutrition_match analysis_result) nutrition_placeholder.
Definition assessment_text_of (analysis_result : string) : string :=
  group_or (assessment_match analysis_result) assessment_placeholder.

(** The part of the route [checker] that follows the model's answer:
    the three extractions, the score, the insert and the update.  The
    results of the two writes are ignored, as in the source; the value
    returned with the data base is [score_change]. *)
Definition checker (o_meal o_score : database.outcome) (now : Z)
    (user_id : Z) (filename : string) (analysis_result : string)
    (d : database.db) : database.db * Z :=
  let meal_name := meal_name_of analysis_result in
  let nutrition_text := nutrition_text_of analysis_result in
  let assessment_text := assessment_text_of analysis_result in
  let assigned_score := calculate_meal_score assessment_text in
  let score_change := assigned_score in
  let d1 := fst (database.add_checked_meal o_meal now user_id meal_name
                   nutrition_text assessment_text assigned_score
                   (Some filename) d) in
  let d2 := fst (database.update_user_score o_score user_id assigned_score d1) in
  (d2, score_change).

(** *** Uploads *)

Definition ALLOWED_EXTENSIONS : list string :=
  ["png"; "jpg"; "jpeg"; "gif"; "webp"].

(** [allowed_file]; [None] stands for the [IndexError] of the index 1 on
    a list of one piece. *)
Definition allowed_file (filename : string) : option bool :=
  if contains "." filename then
    match rsplit1 "." filename !! 1%nat with
    | Some ext => Some (existsb (String.eqb (lower ext)) ALLOWED_EXTENSIONS)
    | None => None
    end
  else Some false.

(** *** Recipe recommender *)

(** What the call of the text model gives: an answer, or an exception
    with its message. *)
Inductive gateway :=
| Answer (text : string)
| Failure (e : string).

Definition raw_record (text : string) : gmap string string :=
  <["name" := "Raw AI Response"]> (<["instructions" := text]> ∅).

(** The POST branch of the route [recommender] after the call of the
    model: the list handed to the template and the error message. *)
Definition recommender (response : gateway)
    : list (gmap string string) * option string :=
  match response with
  | Answer text =>
      let recommendations_list := parse_multi_recipes text in
      if negb (match recommendations_list with [] => false | _ :: _ => true end)
         && truthy text
      then ([raw_record text],
            Some "Could not fully parse recipes from AI response. Displaying raw text.")
      else (recommendations_list, None)
  | Failure e =>
      ([], Some ("Could not get recommendations from AI: " ++ e))
  end.

(** *** Home page *)

(** The names of the recent checks with a positive score and a non-empty
    name, as a set: the route [index] draws up to three of them, in no
    fixed order, for the prompt that asks for suggestions. *)
Definition healthy_meal_names (recent_checks : list database.checked_meal)
    : gset string :=
  list_to_set
    (database.meal_name <$>
       List.filter
         (fun check => (0 <? database.assigned_score check)%Z
                       && truthy (database.meal_name check))
         recent_checks).

(** [healthy_meal_names[:3]], the names that reach the prompt; [listing] is
    the list Python makes of the set, each name once, in an order that is
    not fixed. *)
Definition prompt_names (listing : list string) : list string :=
  take 3 listing.

End app.

(** ** The reference tables of the specification

  These definitions follow the words of the specification, not the code;
  the theorems below compare them with [app]. *)

Module reference.
Import PyStr.

(** The phrase groups of the Score Calculator with their deltas. *)
Definition phrase_groups : list (list string * Z) :=
  [ (["healthy"; "good choice"; "well-balanced"], 5%Z);
    (["low sugar"; "low fat"; "low sodium"], 2%Z);
    (["high fiber"; "good source of protein"], 3%Z);
    (["high sugar"; "high fat"; "high sodium"; "unhealthy"], (-4)%Z);
    (["low protein"; "low fiber"], (-1)%Z);
    (["be cautious"; "consider alternatives"], (-2)%Z) ].

(** A phrase occurs in [s] as a case-insensitive substring. *)
Definition occurs (phrase s : string) : bool :=
  contains (lower phrase) (lower s).

Definition group_fires (s : string) (g : list string * Z) : bool :=
  existsb (fun phrase => occurs phrase s) (fst g).

Definition sum_deltas {A} (delta : A -> Z) (l : list A) : Z :=
  fold_right (fun x acc => (delta x + acc)%Z) 0%Z l.

(** The sum of the deltas of the groups that fire. *)
Definition keyword_sum (s : string) : Z :=
  sum_deltas snd (List.filter (group_fires s) phrase_groups).

(** No keyword phrase of any group occurs in [s]. *)
Definition no_keyword (s : string) : bool :=
  forallb (fun g => negb (group_fires s g)) phrase_groups.

Definition all_phrases : list string := concat (fst <$> phrase_groups).

(** The keyword phrases that occur in [s] are all among [allowed]. *)
Definition matches_only (allowed : list string) (s : string) : bool :=
  forallb (fun phrase => existsb (String.eqb phrase) allowed || negb (occurs phrase s))
    all_phrases.

(** One row of the rule table: when it applies, its note, its delta. *)
Record rule := {
  applies : string -> (string -> Q) -> bool;
  note : string;
  delta : Z
}.

Definition above (x : Q) (n : Z) : bool :=
  match (x ?= inject_Z n)%Q with Gt => true | _ => false end.

(** The five rules in their fixed order; [conditions] is the profile's
    health_conditions text, [amount] a nutrient's value, 0 when missing. *)
Definition rule_table : list rule :=
  [ {| applies := fun conditions amount =>
         occurs "diabetes" conditions && above (amount "sugar") 25;
       note := "High estimated sugar content; may need caution for diabetes management.";
       delta := (-3)%Z |};
    {| applies := fun conditions amount =>
         occurs "hypertension" conditions && above (amount "sodium") 800;
       note := "High estimated sodium content; consider for hypertension.";
       delta := (-2)%Z |};
    {| applies := fun _ amount => above (amount "fat") 35;
       note := "This meal appears relatively high in fat.";
       delta := (-1)%Z |};
    {| applies := fun _ amount => above (amount "fiber") 7;
       note := "Good source of dietary fiber.";
       delta := 2%Z |};
    {| applies := fun _ amount => above (amount "protein") 30;
       note := "High protein content.";
       delta := 1%Z |} ].

Definition amount_of (estimate : gmap string Q) (key : string) : Q :=
  match estimate !! key with
  | Some x => x
  | None => 0%Q
  end.

(** Every rule that applies fires: its note is appended and its delta
    added. *)
Definition rule_engine (estimate : gmap string Q) (conditions : string)
    : list string * Z :=
  let fired :=
    List.filter (fun r => applies r conditions (amount_of estimate)) rule_table in
  (note <$> fired, sum_deltas delta fired).

(** The heading [h] matches in [text] at offset [n], ignoring case. *)
Definition occurs_at (h text : string) (n : nat) : bool :=
  startswith (lower h) (lower (drop n text)).

(** The first match of [h] in [text] is at offset [n]. *)
Definition first_at (h text : string) (n : nat) : bool :=
  occurs_at h text n && forallb (fun k => negb (occurs_at h text k)) (seq 0 n).

(** [h] matches nowhere in [text]. *)
Definition absent (h text : string) : bool := negb (occurs h text).

End reference.

(** ** The Score Calculator on text with U+0130

    [str.lower] turns U+0130, the capital I with a dot above, into the two
    code points "i" and U+0307, the combining dot above, so that the
    lower-cased text can be longer than the text.  Here the characters are
    the code points below 256 and these two; the alphabet is closed under
    [str.lower], and [calculate_meal_score] is translated on it as in
    [app]. *)

Module wide.
Import PyStr.

Inductive cp :=
| Latin1 (c : ascii)
| U0130
| U0307.

(** A string of code points below 256 as a text. *)
Fixpoint of_string (s : string) : list cp :=
  match s with
  | EmptyString => []
  | String c s' => Latin1 c :: of_string s'
  end.

Definition cp_eqb (a b : cp) : bool :=
  match a, b with
  | Latin1 x, Latin1 y => Ascii.eqb x y
  | U0130, U0130 => true
  | U0307, U0307 => true
  | _, _ => false
  end.

(** [str.lower] of one code point. *)
Definition lower_cp (a : cp) : list cp :=
  match a with
  | Latin1 c => [Latin1 (lower_char c)]
  | U0130 => [Latin1 "i"; U0307]
  | U0307 => [U0307]
  end.

(** [s.lower()] *)
Fixpoint lower (s : list cp) : list cp :=
  match s with
  | [] => []
  | a :: s' => (lower_cp a ++ lower s')%list
  end.

(** [len(s)] *)
Definition len (s : list cp) : Z := Z.of_nat (length s).

(** [s.startswith(p)] *)
Fixpoint startswith (p s : list cp) : bool :=
  match p, s with
  | [], _ => true
  | a :: p', b :: s' => cp_eqb a b && startswith p' s'
  | _ :: _, [] => false
  end.

(** [p in s] *)
Fixpoint contains (p s : list cp) : bool :=
  startswith p s ||
  match s with
  | [] => false
  | _ :: s' => contains p s'
  end.

(** [phrase in text] for a phrase of the source. *)
Definition has_phrase (phrase : string) (text : list cp) : bool :=
  contains (of_string phrase) text.

Definition keyword_total (text : list cp) : Z :=
  let score := 0%Z in
  let score :=
    if has_phrase "healthy" text || has_phrase "good choice" text
       || has_phrase "well-balanced" text
    then (score + 5)%Z else score in
  let score :=
    if has_phrase "low sugar" text || has_phrase "low fat" text
       || has_phrase "low sodium" text
    then (score + 2)%Z else score in
  let score :=
    if has_phrase "high fiber" text || has_phrase "good source of protein" text
    then (score + 3)%Z else score in
  let score :=
    if has_phrase "high sugar" text || has_phrase "high fat" text
       || has_phrase "high sodium" text || has_phrase "unhealthy" text
    then (score - 4)%Z else score in
  let score :=
    if has_phrase "low protein" text || has_phrase "low fiber" text
    then (score - 1)%Z else score in
  let score :=
    if has_phrase "be cautious" text || has_phrase "consider alternatives" text
    then (score - 2)%Z else score in
  score.

Definition calculate_meal_score (assessment_text : list cp) : Z :=
  let text := lower assessment_text in
  let score := keyword_total text in
  if (score =? 0)%Z && (10 <? len text)%Z then 1%Z else score.

(** No keyword phrase occurs in [s], ignoring case. *)
Definition no_keyword (s : list cp) : bool :=
  forallb (fun phrase => negb (has_phrase phrase (lower s))) reference.all_phrases.

(** The number of U+0130 in [s]. *)
Fixpoint dotted (s : list cp) : Z :=
  match s with
  | [] => 0
  | U0130 :: s' => 1 + dotted s'
  | _ :: s' => dotted s'
  end.

End wide.

(** ** Sample inputs used to exercise the theorems *)

Module samples.
Import PyStr.

(** An answer of the vision model without the assessment section. *)
Definition answer_without_assessment : string :=
  "## meal name" ++ nl ++ "Lentil soup" ++ nl
  ++ "## Estimated Nutrition" ++ nl ++ "300 kcal" ++ nl.

(** A complete answer. *)
Definition answer_complete : string :=
  "## Meal Name" ++ nl ++ "Fried chicken" ++ nl
  ++ "## Estimated Nutrition" ++ nl ++ "900 kcal" ++ nl
  ++ "## Healthiness Assessment" ++ nl
  ++ "High fat and high sodium; be cautious." ++ nl.

(** A well-formed answer of the text model with two recipes. *)
Definition two_recipes : string :=
  "Here are your recipes." ++ nl
  ++ "--- RECIPE START ---" ++ nl
  ++ "Meal Name: Lentil Soup" ++ nl
  ++ "YouTube Search Terms: easy lentil soup" ++ nl
  ++ "Preparation Time: 30 minutes" ++ nl
  ++ "Ingredients:" ++ nl
  ++ "- 1 cup lentils" ++ nl
  ++ "* 2 carrots" ++ nl
  ++ "Instructions:" ++ nl
  ++ "1. Boil the lentils" ++ nl
  ++ "2. Add the carrots" ++ nl
  ++ "--- RECIPE END ---" ++ nl
  ++ "---recipe start---" ++ nl
  ++ "MEAL NAME: Toast" ++ nl
  ++ "Instructions: toast the bread" ++ nl
  ++ "---  Recipe End  ---" ++ nl.

Definition ana : database.user :=
  {| database.username := "ana";
     database.password_hash := "$2b$12$abcdefghijklmnopqrstuv";
     database.age := Some 45%Z;
     database.health_conditions := Some "hypertension";
     database.total_health_score := 7%Z |}.

Definition one_user : database.db :=
  {| database.users := {[ 1%Z := ana ]}; database.checked_meals := [] |}.

End samples.

(** ** Predicates used to state the properties of the code *)

Module props.
Import PyStr.

(** Every character of [s] satisfies [f]. *)
Fixpoint all_chars (f : ascii -> bool) (s : string) : bool :=
  match s with
  | EmptyString => true
  | String c s' => f c && all_chars f s'
  end.

Definition not_newline (c : ascii) : bool := negb (Ascii.eqb c newline).

(** [s] is a single line. *)
Definition one_line (s : string) : bool := all_chars not_newline s.

(** The characters a quoted query may hold: letters, digits, the four
    marks [_.-~], the plus sign and the percent sign. *)
Definition url_char (c : ascii) : bool :=
  urllib_parse.always_safe c || Ascii.eqb c "+" || Ascii.eqb c "%".

(** [s] does not start with a character of [chars]. *)
Definition no_leading (chars s : string) : bool :=
  match s with
  | EmptyString => true
  | String c _ => negb (mem_char c chars)
  end.

(** The field names a parsed record may hold. *)
Definition record_keys : list string :=
  ["name"; "youtube_search_terms"; "prep_time"; "taste"; "ingredients";
   "instructions"; "nutrition"; "youtube_search_url"].

(** The field names of [key_map]. *)
Definition field_names : list string := snd <$> app.key_map.

(** The keys stored while a block is scanned are field names of
    [key_map]. *)
Definition scan_ok (st : app.scan) : Prop :=
  (forall k, is_Some (app.recipe_data st !! k) -> In k field_names) /\
  (forall k, app.current_key st = Some k -> In k field_names).


(** The sum of the scores of the meals logged for [uid]. *)
Definition history_sum (d : database.db) (uid : Z) : Z :=
  fold_right Z.add 0%Z
    (database.assigned_score <$>
       List.filter (fun r => (database.user_id r =? uid)%Z) (database.checked_meals d)).

(** Every user's total is the sum of the scores of the user's logged
    meals. *)
Definition consistent (d : database.db) : Prop :=
  forall uid u, database.users d !! uid = Some u ->
                database.total_health_score u = history_sum d uid.

(** No two rows of users carry the same username. *)
Definition unique_usernames (d : database.db) : Prop :=
  forall i j u v,
    database.users d !! i = Some u -> database.users d !! j = Some v ->
    database.username u = database.username v -> i = j.

End props.

(** ** Facts about the string operations *)

Section StringFacts.
Import PyStr PyRe.

Lemma lower_length (s : string) : String.length (lower s) = String.length s.
Proof. induction s as [|c s IH]; simpl; [reflexivity | now rewrite IH]. Qed.

Lemma len_lower (s : string) : len (lower s) = len s.
Proof. unfold len. now rewrite lower_length. Qed.

Lemma lower_app (s t : string) : lower (s ++ t) = lower s ++ lower t.
Proof. induction s as [|c s IH]; simpl; [reflexivity | now rewrite IH]. Qed.

Lemma lower_char_idem (c : ascii) : lower_char (lower_char c) = lower_char c.
Proof. destruct c as [[] [] [] [] [] [] [] []]; reflexivity. Qed.

Lemma lower_idem (s : string) : lower (lower s) = lower s.
Proof.
  induction s as [|c s IH]; simpl; [reflexivity|].
  now rewrite lower_char_idem, IH.
Qed.

Lemma startswith_app (p s : string) : startswith p (p ++ s) = true.
Proof.
  induction p as [|c p IH]; simpl; [reflexivity|].
  now rewrite Ascii.eqb_refl, IH.
Qed.

Lemma startswith_split (p s : string) :
  startswith p s = true -> s = p ++ drop (String.length p) s.
Proof.
  revert s. induction p as [|c p IH]; intros [|d s]; simpl; try easy.
  intros H. apply andb_prop in H as [Hc Hp].
  apply Ascii.eqb_eq in Hc. subst d. cbn. f_equal. now apply IH.
Qed.

Lemma contains_startswith (p s : string) :
  startswith p s = true -> contains p s = true.
Proof. intros H. destruct s; simpl; now rewrite H. Qed.

(** [p in s] holds exactly when [s] splits around a copy of [p]. *)
Lemma contains_spec (p s : string) :
  contains p s = true <-> exists a b, s = a ++ p ++ b.
Proof.
  split.
  - induction s as [|c s IH]; simpl; rewrite ?orb_false_r.
    + intros H. exists EmptyString, (drop (String.length p) EmptyString).
      now apply startswith_split.
    + intros H. apply orb_prop in H as [H|H].
      * exists EmptyString, (drop (String.length p) (String c s)).
        now apply startswith_split.
      * destruct (IH H) as (a & b & ->). now exists (String c a), b.
  - intros (a & b & ->). induction a as [|c a IH]; simpl.
    + apply contains_startswith, startswith_app.
    + rewrite IH. apply orb_true_r.
Qed.

Lemma imatch_startswith (h s : string) :
  imatch h s =
  if startswith (lower h) (lower s) then Some (drop (String.length h) s) else None.
Proof.
  revert s. induction h as [|a h IH]; intros [|b s]; simpl; try reflexivity.
  unfold ieq. destruct (Ascii.eqb (lower_char a) (lower_char b)); simpl; [apply IH | reflexivity].
Qed.

Lemma search_after_none (h s : string) :
  search_after h s = None <-> contains (lower h) (lower s) = false.
Proof.
  induction s as [|c s IH]; simpl; rewrite imatch_startswith; simpl.
  - destruct (startswith (lower h) EmptyString); simpl; split; congruence.
  - destruct (startswith (lower h) (String (lower_char c) (lower s))); simpl.
    + split; congruence.
    + exact IH.
Qed.

Lemma isspace_newline : isspace newline = true.
Proof. reflexivity. Qed.

Lemma lstrip_head (s : string) :
  match lstrip s with
  | EmptyString => True
  | String c _ => isspace c = false
  end.
Proof.
  induction s as [|c s IH]; simpl; [exact I|].
  destruct (isspace c) eqn:E; [exact IH | exact E].
Qed.

Lemma lstrip_idem (s : string) : lstrip (lstrip s) = lstrip s.
Proof.
  pose proof (lstrip_head s) as H. destruct (lstrip s) as [|c r]; simpl; [reflexivity|].
  now rewrite H.
Qed.

(** After [\s*] has taken all the white space, [\n*] takes nothing. *)
Lemma skip_nl_skip_ws (s : string) : skip_nl (skip_ws s) = lstrip s.
Proof.
  unfold skip_ws. pose proof (lstrip_head s) as H.
  destruct (lstrip s) as [|c r]; simpl; [reflexivity|].
  destruct (Ascii.eqb c newline) eqn:E; [|reflexivity].
  apply Ascii.eqb_eq in E. subst c. rewrite isspace_newline in H. discriminate.
Qed.

Lemma strip_lstrip (s : string) : strip (lstrip s) = strip s.
Proof. unfold strip. now rewrite lstrip_idem. Qed.

End StringFacts.

(** ** Score Calculator *)

Section ScoreCalculator.
Import PyStr app reference.

(** The six [if] statements add up the deltas of the phrase groups that
    fire. *)
Lemma keyword_total_sum (s : string) :
  keyword_total (lower s) = keyword_sum s.
Proof.
  unfold keyword_total, keyword_sum, phrase_groups, group_fires, occurs.
  cbn [List.filter existsb fst].
  repeat match goal with
         | |- context [lower (String ?c ?r)] =>
             let v := eval vm_compute in (lower (String c r)) in
             change (lower (String c r)) with v
         end.
  rewrite !orb_false_r, <- !orb_assoc.
  repeat match goal with
         | |- context [if ?b then _ else _] => destruct b
         end; reflexivity.
Qed.

Lemma filter_none {A} (f : A -> bool) (l : list A) :
  forallb (fun x => negb (f x)) l = true -> List.filter f l = [].
Proof.
  induction l as [|x l IH]; simpl; [reflexivity|].
  intros H. apply andb_prop in H as [Hx Hl].
  apply negb_true_iff in Hx. rewrite Hx. now apply IH.
Qed.

Lemma no_keyword_sum (s : string) : no_keyword s = true -> keyword_sum s = 0%Z.
Proof.
  intros H. unfold keyword_sum. now rewrite (filter_none _ _ H).
Qed.

Lemma calculate_meal_score_eq (s : string) :
  calculate_meal_score s =
  if (keyword_sum s =? 0)%Z && (10 <? len s)%Z then 1%Z else keyword_sum s.
Proof.
  unfold calculate_meal_score. cbv zeta.
  now rewrite keyword_total_sum, len_lower.
Qed.

Lemma lower_split (s x y : string) :
  lower s = x ++ y -> exists s1 s2, s = s1 ++ s2 /\ lower s1 = x /\ lower s2 = y.
Proof.
  revert s. induction x as [|c x IH]; intros s H.
  - now exists EmptyString, s.
  - destruct s as [|d s]; simpl in H; [discriminate|].
    injection H as Hc Hs. destruct (IH _ Hs) as (s1 & s2 & -> & H1 & H2).
    exists (String d s1), s2. simpl. now rewrite Hc, H1.
Qed.

(** [occurs] is substring search up to case. *)
Lemma occurs_spec (phrase s : string) :
  occurs phrase s = true <->
  exists a u b, s = a ++ u ++ b /\ lower u = lower phrase.
Proof.
  unfold occurs. rewrite contains_spec. split.
  - intros (a' & b' & H).
    apply lower_split in H as (a & r & -> & _ & H).
    apply lower_split in H as (u & b & -> & Hu & _).
    now exists a, u, b.
  - intros (a & u & b & -> & Hu).
    exists (lower a), (lower b). now rewrite !lower_app, Hu.
Qed.

(** On code points below 256, where lower-casing keeps the length: a
    text in which no keyword phrase occurs scores 1 when it is longer than
    10 characters and 0 otherwise. *)
Lemma score_without_keywords_latin1 (s : string) :
  no_keyword s = true ->
  ((10 < len s)%Z -> calculate_meal_score s = 1%Z) /\
  ((len s <= 10)%Z -> calculate_meal_score s = 0%Z).
Proof.
  intros H. rewrite calculate_meal_score_eq, (no_keyword_sum _ H). simpl.
  split; intros Hl.
  - apply Z.ltb_lt in Hl. now rewrite Hl.
  - apply Z.ltb_ge in Hl. now rewrite Hl.
Qed.

Lemma healthy_high_sugar (s : string) :
  occurs "healthy" s = true -> occurs "high sugar" s = true ->
  matches_only ["healthy"; "high sugar"] s = true ->
  keyword_sum s = 1%Z.
Proof.
  intros Hh Hs Ho. unfold matches_only in Ho.
  cbn -[occurs] in Ho.
  repeat (apply andb_prop in Ho as [? Ho]).
  repeat match goal with
         | H : negb _ = true |- _ => apply negb_true_iff in H
         end.
  unfold keyword_sum, phrase_groups, group_fires.
  cbn [List.filter existsb fst].
  repeat match goal with
         | H : occurs _ _ = _ |- _ => rewrite H
         end.
  reflexivity.
Qed.

(** C3: the total before the default is the sum of the deltas of all the
    phrase groups of which a phrase occurs, ignoring case, and the score
    is that total unless the default applies; a text in which "healthy"
    and "high sugar" occur and no other phrase scores 5 + (-4) = 1. *)
Theorem keyword_deltas_additive (s : string) :
  keyword_total (lower s) = keyword_sum s /\
  calculate_meal_score s =
    (if (keyword_sum s =? 0)%Z && (10 <? len s)%Z then 1%Z else keyword_sum s) /\
  (occurs "healthy" s = true -> occurs "high sugar" s = true ->
   matches_only ["healthy"; "high sugar"] s = true ->
   calculate_meal_score s = (5 + (-4))%Z).
Proof.
  split; [apply keyword_total_sum|]. split; [apply calculate_meal_score_eq|].
  intros Hh Hs Ho. rewrite calculate_meal_score_eq.
  now rewrite (healthy_high_sugar s Hh Hs Ho).
Qed.

Lemma keyword_deltas_additive_witness :
  calculate_meal_score "A Healthy bowl, though HIGH SUGAR." = 1%Z.
Proof.
  apply (keyword_deltas_additive "A Healthy bowl, though HIGH SUGAR.");
    vm_compute; reflexivity.
Defined.

End ScoreCalculator.

(** ** The default of the Score Calculator and U+0130 *)

Section WideScore.
Import PyStr reference.

Lemma wide_lower_of_string (s : string) :
  wide.lower (wide.of_string s) = wide.of_string (lower s).
Proof. induction s as [|c s IH]; simpl; [reflexivity | now rewrite IH]. Qed.

Lemma wide_startswith_of_string (p s : string) :
  wide.startswith (wide.of_string p) (wide.of_string s) = startswith p s.
Proof.
  revert s. induction p as [|a p IH]; intros [|b s]; simpl; try reflexivity.
  now rewrite IH.
Qed.

Lemma wide_contains_of_string (p s : string) :
  wide.has_phrase p (wide.of_string s) = contains p s.
Proof.
  unfold wide.has_phrase. induction s as [|c s IH].
  - simpl. change [] with (wide.of_string EmptyString).
    now rewrite wide_startswith_of_string.
  - cbn [wide.of_string wide.contains contains].
    change (wide.Latin1 c :: wide.of_string s) with (wide.of_string (String c s)).
    now rewrite wide_startswith_of_string, IH.
Qed.

Lemma wide_len_of_string (s : string) : wide.len (wide.of_string s) = len s.
Proof.
  unfold wide.len, len. f_equal.
  induction s as [|c s IH]; simpl; [reflexivity | now rewrite IH].
Qed.

(** On text of code points below 256 the two translations of
    [calculate_meal_score] agree. *)
Lemma wide_score_of_string (s : string) :
  wide.calculate_meal_score (wide.of_string s) = app.calculate_meal_score s.
Proof.
  unfold wide.calculate_meal_score, app.calculate_meal_score,
    wide.keyword_total, app.keyword_total. cbv zeta.
  now rewrite wide_lower_of_string, wide_len_of_string, !wide_contains_of_string.
Qed.

Lemma wide_dotted_nonneg (s : list wide.cp) : (0 <= wide.dotted s)%Z.
Proof. induction s as [|[c| |] s IH]; simpl; lia. Qed.

(** Lower-casing adds one code point for each U+0130. *)
Lemma wide_len_lower (s : list wide.cp) :
  wide.len (wide.lower s) = (wide.len s + wide.dotted s)%Z.
Proof.
  unfold wide.len. induction s as [|[c| |] s IH]; cbn [wide.lower wide.lower_cp wide.dotted];
    rewrite ?length_app; cbn [length Nat.add]; lia.
Qed.

Lemma wide_no_keyword_total (s : list wide.cp) :
  wide.no_keyword s = true -> wide.keyword_total (wide.lower s) = 0%Z.
Proof.
  intros H. unfold wide.no_keyword in H. cbn -[wide.has_phrase wide.lower] in H.
  repeat (apply andb_prop in H as [? H]).
  repeat match goal with
         | G : negb _ = true |- _ => apply negb_true_iff in G
         end.
  unfold wide.keyword_total. cbv zeta.
  repeat match goal with
         | G : wide.has_phrase _ _ = false |- _ => rewrite G; clear G
         end.
  reflexivity.
Qed.

Lemma wide_score_default (s : list wide.cp) :
  wide.no_keyword s = true ->
  wide.calculate_meal_score s = if (10 <? wide.len s + wide.dotted s)%Z then 1%Z else 0%Z.
Proof.
  intros H. unfold wide.calculate_meal_score. cbv zeta.
  now rewrite (wide_no_keyword_total s H), wide_len_lower.
Qed.

(** C1, as the code has it: a text in which no keyword phrase occurs
    scores 1 when its lower-cased form is longer than 10 characters and 0
    otherwise.  The lower-cased form has the length of the text plus one
    for each U+0130 in it: so a text longer than 10 characters scores 1,
    and a text of at most 10 characters without U+0130, the empty text
    included, scores 0. *)
Theorem score_without_keywords (s : list wide.cp) :
  wide.no_keyword s = true ->
  wide.len (wide.lower s) = (wide.len s + wide.dotted s)%Z /\
  ((10 < wide.len (wide.lower s))%Z -> wide.calculate_meal_score s = 1%Z) /\
  ((wide.len (wide.lower s) <= 10)%Z -> wide.calculate_meal_score s = 0%Z) /\
  ((10 < wide.len s)%Z -> wide.calculate_meal_score s = 1%Z) /\
  (wide.dotted s = 0%Z -> (wide.len s <= 10)%Z -> wide.calculate_meal_score s = 0%Z).
Proof.
  intros H. rewrite (wide_score_default s H), wide_len_lower.
  pose proof (wide_dotted_nonneg s) as Hd.
  split; [reflexivity|].
  repeat split; intros; destruct (Z.ltb_spec 10 (wide.len s + wide.dotted s)); lia.
Qed.

Lemma score_without_keywords_witness :
  wide.calculate_meal_score (wide.of_string "Plain rice with beans") = 1%Z /\
  wide.calculate_meal_score [] = 0%Z /\
  wide.calculate_meal_score
    [wide.U0130; wide.Latin1 "z"; wide.U0130; wide.Latin1 "m"; wide.Latin1 "i";
     wide.Latin1 "r"; wide.U0130] = 0%Z.
Proof.
  split; [|split].
  - assert (H : wide.no_keyword (wide.of_string "Plain rice with beans") = true)
      by (vm_compute; reflexivity).
    destruct (score_without_keywords _ H) as (_ & H1 & _).
    apply H1. vm_compute. reflexivity.
  - assert (H : wide.no_keyword [] = true) by reflexivity.
    destruct (score_without_keywords _ H) as (_ & _ & H0 & _).
    apply H0. vm_compute. discriminate.
  - assert (H : wide.no_keyword
                  [wide.U0130; wide.Latin1 "z"; wide.U0130; wide.Latin1 "m";
                   wide.Latin1 "i"; wide.Latin1 "r"; wide.U0130] = true)
      by (vm_compute; reflexivity).
    destruct (score_without_keywords _ H) as (_ & _ & H0 & _).
    apply H0. vm_compute. discriminate.
Defined.

(** Six U+0130 hold no keyword phrase and make a text of 6 characters,
    yet they score 1: lower-cased, they are 12 code points. *)
Lemma score_six_dotted_capitals :
  wide.no_keyword
    [wide.U0130; wide.U0130; wide.U0130; wide.U0130; wide.U0130; wide.U0130] = true /\
  wide.len
    [wide.U0130; wide.U0130; wide.U0130; wide.U0130; wide.U0130; wide.U0130] = 6%Z /\
  wide.calculate_meal_score
    [wide.U0130; wide.U0130; wide.U0130; wide.U0130; wide.U0130; wide.U0130] = 1%Z.
Proof. repeat split; vm_compute; reflexivity. Qed.

End WideScore.

(** ** Rule engine *)

Section RuleEngine.
Import PyStr app reference.

Lemma gt_above (x : Q) (n : Z) : gt x n = above x n.
Proof.
  unfold gt, above, Qle_bool, Qcompare, Z.leb.
  now destruct (Qnum x * QDen (inject_Z n) ?= Qnum (inject_Z n) * QDen x)%Z.
Qed.

Lemma gt_lt (x : Q) (n : Z) : gt x n = true <-> (inject_Z n < x)%Q.
Proof.
  unfold gt. rewrite negb_true_iff, <- not_true_iff_false, Qle_bool_iff.
  split; [apply Qnot_le_lt | apply Qlt_not_le].
Qed.

Lemma gt_proper (x y : Q) (n : Z) : (x == y)%Q -> gt x n = gt y n.
Proof. intros H. unfold gt. now rewrite H. Qed.

Lemma get0_amount (d : gmap string Q) (key : string) : get0 d key = amount_of d key.
Proof. unfold get0, amount_of. now destruct (d !! key). Qed.

(** The five [if] statements compute the rule table. *)
Lemma rules_table (n : gmap string Q) (conditions : string) :
  rules n (lower conditions) = rule_engine n conditions.
Proof.
  unfold rules, rule_engine, rule_table, occurs.
  cbn [List.filter applies].
  rewrite <- !gt_above.
  change (amount_of n) with (get0 n).
  change (lower "diabetes") with "diabetes".
  change (lower "hypertension") with "hypertension".
  destruct (contains "diabetes" (lower conditions) && gt (get0 n "sugar") 25);
  destruct (contains "hypertension" (lower conditions) && gt (get0 n "sodium") 800);
  destruct (gt (get0 n "fat") 35);
  destruct (gt (get0 n "fiber") 7);
  destruct (gt (get0 n "protein") 30); reflexivity.
Qed.

(** C2: the engine is the rule table: five independent rules in the fixed
    order, one note per rule that fires, missing keys read as 0, the
    delta the sum of the deltas of the rules that fire; with the three
    examples of the specification. *)
Theorem rule_engine_is_table :
  (forall (n : gmap string Q) (p : gmap string value),
     apply_rule_engine n p =
     match p !! "health_conditions" with
     | None => Some (rule_engine n "")
     | Some (VStr conditions) => Some (rule_engine n conditions)
     | Some _ => None
     end) /\
  (forall (n : gmap string Q) (conditions : string),
     length (fst (rule_engine n conditions)) =
     length (List.filter (fun r => applies r conditions (amount_of n)) rule_table) /\
     snd (rule_engine n conditions) =
     sum_deltas delta (List.filter (fun r => applies r conditions (amount_of n)) rule_table)) /\
  (forall (n : gmap string Q) (key : string), get0 (delete key n) key = 0%Q) /\
  apply_rule_engine {[ "sugar" := 30%Q ]} {[ "health_conditions" := VStr "type 2 diabetes" ]} =
    Some (["High estimated sugar content; may need caution for diabetes management."], (-3)%Z) /\
  apply_rule_engine {[ "sugar" := 20%Q ]} {[ "health_conditions" := VStr "type 2 diabetes" ]} =
    Some ([], 0%Z) /\
  apply_rule_engine (<["fiber" := 8%Q]> {[ "protein" := 35%Q ]}) {[ "health_conditions" := VStr "" ]} =
    Some (["Good source of dietary fiber."; "High protein content."], 3%Z).
Proof.
  split; [|split; [|split; [|split; [|split]]]].
  - intros n p. unfold apply_rule_engine, conditions_of.
    destruct (p !! "health_conditions") as [[| |c]|]; try reflexivity.
    + now rewrite rules_table.
    + now rewrite rules_table.
  - intros n c. unfold rule_engine. cbn [fst snd].
    split; [apply length_fmap | reflexivity].
  - intros n key. unfold get0. now rewrite lookup_delete_eq.
  - vm_compute. reflexivity.
  - vm_compute. reflexivity.
  - vm_compute. reflexivity.
Qed.

Lemma above_proper (x y : Q) (n : Z) : (x == y)%Q -> above x n = above y n.
Proof. intros H. rewrite <- !gt_above. now apply gt_proper. Qed.

Lemma rule_engine_agree (n1 n2 : gmap string Q) (conditions : string) :
  (forall key, In key ["sugar"; "sodium"; "fat"; "fiber"; "protein"] ->
               (get0 n1 key == get0 n2 key)%Q) ->
  rule_engine n1 conditions = rule_engine n2 conditions.
Proof.
  intros H. unfold rule_engine, rule_table. cbn [List.filter applies].
  change (amount_of n1) with (get0 n1). change (amount_of n2) with (get0 n2).
  rewrite (above_proper _ _ 25 (H "sugar" ltac:(simpl; tauto))).
  rewrite (above_proper _ _ 800 (H "sodium" ltac:(simpl; tauto))).
  rewrite (above_proper _ _ 35 (H "fat" ltac:(simpl; tauto))).
  rewrite (above_proper _ _ 7 (H "fiber" ltac:(simpl; tauto))).
  rewrite (above_proper _ _ 30 (H "protein" ltac:(simpl; tauto))).
  reflexivity.
Qed.

Lemma apply_rule_engine_table (n : gmap string Q) (p : gmap string value) :
  apply_rule_engine n p =
  match p !! "health_conditions" with
  | None => Some (rule_engine n "")
  | Some (VStr conditions) => Some (rule_engine n conditions)
  | Some _ => None
  end.
Proof.
  unfold apply_rule_engine, conditions_of.
  destruct (p !! "health_conditions") as [[| |c]|]; try reflexivity;
    now rewrite rules_table.
Qed.

(** C10: the result depends on the profile only through its
    health_conditions entry and on the estimate only through the values
    of sugar, sodium, fat, fiber and protein (0 when missing); the age
    and the calories and carbs values never change it. *)
Theorem rule_engine_noninterference :
  (forall (n1 n2 : gmap string Q) (p1 p2 : gmap string value),
     p1 !! "health_conditions" = p2 !! "health_conditions" ->
     (forall key, In key ["sugar"; "sodium"; "fat"; "fiber"; "protein"] ->
                  (get0 n1 key == get0 n2 key)%Q) ->
     apply_rule_engine n1 p1 = apply_rule_engine n2 p2) /\
  (forall (n : gmap string Q) (p : gmap string value) (a : value) (calories carbs : Q),
     apply_rule_engine (<["calories" := calories]> (<["carbs" := carbs]> n))
                       (<["age" := a]> p) =
     apply_rule_engine n p).
Proof.
  assert (G : forall (n1 n2 : gmap string Q) (p1 p2 : gmap string value),
     p1 !! "health_conditions" = p2 !! "health_conditions" ->
     (forall key, In key ["sugar"; "sodium"; "fat"; "fiber"; "protein"] ->
                  (get0 n1 key == get0 n2 key)%Q) ->
     apply_rule_engine n1 p1 = apply_rule_engine n2 p2).
  { intros n1 n2 p1 p2 Hp Hn. rewrite !apply_rule_engine_table, Hp.
    destruct (p2 !! "health_conditions") as [[| |c]|]; try reflexivity;
      f_equal; now apply rule_engine_agree. }
  split; [exact G|].
  intros n p a calories carbs. apply G.
  - now rewrite lookup_insert_ne.
  - intros key Hk. unfold get0.
    rewrite !lookup_insert_ne; [reflexivity | |];
      simpl in Hk; intros <-; intuition discriminate.
Qed.

Lemma rule_engine_noninterference_witness :
  apply_rule_engine
    (<["sugar" := 30%Q]> {[ "calories" := 550%Q ]})
    (<["age" := VInt 45]> {[ "health_conditions" := VStr "Diabetes" ]}) =
  apply_rule_engine
    (<["sugar" := (60 # 2)%Q]> {[ "carbs" := 40%Q ]})
    {[ "health_conditions" := VStr "Diabetes" ]}.
Proof.
  apply (proj1 rule_engine_noninterference).
  - vm_compute. reflexivity.
  - intros key Hk. simpl in Hk.
    destruct Hk as [<-|[<-|[<-|[<-|[<-|[]]]]]]; vm_compute; reflexivity.
Defined.

End RuleEngine.

(** ** Recipe parser *)

Section RecipeParser.
Import PyStr PyRe app reference.

(** *** [findall] never runs out of fuel *)

Lemma drop_length (n : nat) (s : string) :
  String.length (drop n s) = String.length s - n.
Proof.
  revert s. induction n as [|n IH]; intros [|c s]; simpl; try reflexivity.
  apply IH.
Qed.

Lemma startswith_length (p s : string) :
  startswith p s = true -> String.length p <= String.length s.
Proof.
  revert s. induction p as [|a p IH]; intros [|b s]; simpl; try easy; try lia.
  intros H. apply andb_prop in H as [_ H]. apply IH in H. lia.
Qed.

Lemma imatch_length (p s r : string) :
  imatch p s = Some r -> String.length r + String.length p = String.length s.
Proof.
  rewrite imatch_startswith.
  destruct (startswith (lower p) (lower s)) eqn:E; [|discriminate].
  intros [= <-]. apply startswith_length in E.
  rewrite !lower_length in E. rewrite drop_length. lia.
Qed.

Lemma lstrip_length (s : string) : String.length (lstrip s) <= String.length s.
Proof.
  induction s as [|c s IH]; simpl; [lia|].
  destruct (isspace c); simpl; lia.
Qed.

Lemma marker_length (word s r : string) :
  marker word s = Some r -> String.length r < String.length s.
Proof.
  unfold marker, skip_ws.
  destruct (imatch "---" s) as [r1|] eqn:E1; [|discriminate].
  destruct (imatch word (lstrip r1)) as [r2|] eqn:E2; [|discriminate].
  intros E3. apply imatch_length in E1, E2, E3.
  pose proof (lstrip_length r1). pose proof (lstrip_length r2).
  simpl in E1, E3. lia.
Qed.

Lemma lazy_body_length (s g r : string) :
  lazy_body s = Some (g, r) -> String.length r < String.length s.
Proof.
  revert g. induction s as [|c s IH]; intros g; simpl.
  - discriminate.
  - destruct (marker "RECIPE END" (String c s)) eqn:E.
    + intros [= _ <-]. now apply marker_length in E.
    + destruct (lazy_body s) as [[g' r']|]; [|discriminate].
      intros [= _ <-]. specialize (IH _ eq_refl). lia.
Qed.

Lemma recipe_match_length (s g r : string) :
  recipe_match s = Some (g, r) -> String.length r < String.length s.
Proof.
  unfold recipe_match. destruct (marker "RECIPE START" s) as [body|] eqn:E; [|discriminate].
  intros H. apply lazy_body_length in H. apply marker_length in E. lia.
Qed.

Lemma findall_from_enough (n m : nat) (s : string) :
  String.length s <= n -> String.length s <= m ->
  findall_from n s = findall_from m s.
Proof.
  revert m s. induction n as [|n IH]; intros [|m] s Hn Hm.
  - reflexivity.
  - destruct s; [reflexivity | simpl in Hn; lia].
  - destruct s; [reflexivity | simpl in Hm; lia].
  - simpl. destruct (recipe_match s) as [[g r]|] eqn:E.
    + apply recipe_match_length in E. f_equal. apply IH; lia.
    + destruct s as [|c s]; [reflexivity|]. simpl in Hn, Hm. apply IH; lia.
Qed.

(** The equation of [findall]: a match at the head, then the search goes
    on after it; otherwise one character further. *)
Lemma findall_eq (s : string) :
  findall s =
  match recipe_match s with
  | Some (g, rest) => g :: findall rest
  | None =>
      match s with
      | EmptyString => []
      | String _ s' => findall s'
      end
  end.
Proof.
  unfold findall at 1. destruct s as [|c s].
  - reflexivity.
  - cbn [String.length findall_from].
    destruct (recipe_match (String c s)) as [[g r]|] eqn:E.
    + apply recipe_match_length in E. simpl in E. f_equal.
      apply findall_from_enough; lia.
    + reflexivity.
Qed.

(** Without three consecutive hyphens there is no match at all. *)
Lemma findall_no_marker (s : string) :
  occurs "---" s = false -> findall s = [].
Proof.
  unfold findall. generalize (String.length s) as fuel. intros fuel. revert s.
  induction fuel as [|fuel IH]; intros s H; [reflexivity|].
  unfold occurs in H. change (lower "---") with "---" in H.
  assert (E : recipe_match s = None).
  { unfold recipe_match, marker. rewrite imatch_startswith.
    change (lower "---") with "---".
    destruct (startswith "---" (lower s)) eqn:Es; [|reflexivity].
    apply contains_startswith in Es. congruence. }
  cbn [findall_from]. rewrite E. destruct s as [|c s]; [reflexivity|].
  apply IH. unfold occurs. change (lower "---") with "---".
  cbn [lower contains] in H. apply orb_false_elim in H as [_ H]. exact H.
Qed.

(** *** The loop over the matches *)

Lemma fold_add_block (blocks : list string) (recipes : list (gmap string string)) :
  fold_left add_block blocks recipes =
  (recipes ++ (post_process <$> List.filter accepted (scan_block <$> blocks)))%list.
Proof.
  revert recipes. induction blocks as [|b blocks IH]; intros recipes; simpl.
  - now rewrite app_nil_r.
  - rewrite IH. unfold add_block.
    destruct (accepted (scan_block b)); [|reflexivity].
    now rewrite <- app_assoc.
Qed.

Lemma parsed_recipes_filter (t : string) :
  parsed_recipes t =
  post_process <$> List.filter accepted (scan_block <$> findall t).
Proof. unfold parsed_recipes. now rewrite fold_add_block. Qed.

Lemma truthy_nonempty (s : string) : truthy s = true <-> s <> EmptyString.
Proof. destruct s; simpl; split; congruence. Qed.

Lemma has_spec (d : gmap string string) (key : string) :
  has d key = true <-> exists v, d !! key = Some v /\ v <> EmptyString.
Proof.
  unfold has. destruct (d !! key) as [v|].
  - rewrite truthy_nonempty. split; [eauto | now intros (? & [= <-] & ?)].
  - split; [discriminate | now intros (? & ? & _)].
Qed.

Lemma clean_field_other (key chars other : string) (d : gmap string string) :
  key <> other -> clean_field key chars d !! other = d !! other.
Proof.
  intros H. unfold clean_field. destruct (has d key); [|reflexivity].
  now rewrite lookup_insert_ne.
Qed.

Lemma post_process_name (d : gmap string string) :
  post_process d !! "name" = d !! "name".
Proof.
  unfold post_process, add_search_url.
  set (d' := clean_field "instructions" _ _).
  assert (H : d' !! "name" = d !! "name")
    by (unfold d'; now rewrite !clean_field_other).
  destruct (d' !! "youtube_search_terms") as [t|]; [|exact H].
  destruct (truthy t); [|exact H]. now rewrite lookup_insert_ne.
Qed.

Lemma fallback_instructions (t : string) :
  fallback_record t !! "instructions" = Some t.
Proof.
  unfold fallback_record. rewrite lookup_insert_ne by discriminate.
  apply lookup_insert_eq.
Qed.

Lemma fallback_name_field (t : string) :
  fallback_record t !! "name" = Some fallback_name.
Proof. apply lookup_insert_eq. Qed.

Lemma parse_long (t : string) :
  parsed_recipes t = [] -> (50 < len t)%Z ->
  parse_multi_recipes t = [fallback_record t].
Proof.
  intros H Hl. unfold parse_multi_recipes. rewrite H. simpl.
  apply Z.ltb_lt in Hl. now rewrite Hl.
Qed.

Lemma parse_short (t : string) :
  parsed_recipes t = [] -> (len t <= 50)%Z -> parse_multi_recipes t = [].
Proof.
  intros H Hl. unfold parse_multi_recipes. rewrite H. simpl.
  apply Z.ltb_ge in Hl. now rewrite Hl.
Qed.

Example parse_two_recipes :
  (fun d => (d !! "name", d !! "ingredients", d !! "instructions",
             d !! "youtube_search_url")) <$> parse_multi_recipes samples.two_recipes =
  [ (Some "Lentil Soup",
     Some ("1 cup lentils" ++ nl ++ "2 carrots"),
     Some ("Boil the lentils" ++ nl ++ "Add the carrots"),
     Some "https://www.youtube.com/results?search_query=easy+lentil+soup");
    (Some "Toast", None, Some "toast the bread", None) ].
Proof. vm_compute. reflexivity. Qed.

(** C4: when no block is accepted, a text longer than 50 characters
    yields exactly one record, named by the parse-failure sentinel and
    carrying the raw text as its instructions, and a text shorter than 50
    characters yields the empty list.  The parser is a total function:
    it returns a list on every text. *)
Theorem parser_fallback (t : string) :
  parsed_recipes t = [] ->
  ((50 < len t)%Z ->
     parse_multi_recipes t = [fallback_record t] /\
     fallback_record t !! "instructions" = Some t /\
     fallback_record t !! "name" = Some "Recipe Details (Parsing Failed)") /\
  ((len t < 50)%Z -> parse_multi_recipes t = []).
Proof.
  intros H. split.
  - intros Hl. split; [now apply parse_long|].
    split; [apply fallback_instructions | apply fallback_name_field].
  - intros Hl. apply parse_short; [exact H | lia].
Qed.

Lemma parser_fallback_witness :
  parse_multi_recipes
    "Sorry, I could not come up with recipes for these targets today." =
  [fallback_record
     "Sorry, I could not come up with recipes for these targets today."] /\
  parse_multi_recipes "No recipes today." = [].
Proof.
  split.
  - apply (parser_fallback
             "Sorry, I could not come up with recipes for these targets today.");
      vm_compute; reflexivity.
  - apply (parser_fallback "No recipes today."); vm_compute; reflexivity.
Defined.

(** C6: the records returned by the loop are those of the blocks whose
    accumulated fields hold a non-empty name and a non-empty ingredients
    or instructions field, one record per such block and in the order of
    the blocks; every other block adds nothing. *)
Theorem block_acceptance :
  (forall d : gmap string string,
     accepted d = true <->
     (exists name, d !! "name" = Some name /\ name <> "") /\
     ((exists v, d !! "ingredients" = Some v /\ v <> "") \/
      (exists v, d !! "instructions" = Some v /\ v <> ""))) /\
  (forall (recipes : list (gmap string string)) (block : string),
     accepted (scan_block block) = true ->
     add_block recipes block =
     (recipes ++ [post_process (scan_block block)])%list /\
     post_process (scan_block block) !! "name" = scan_block block !! "name") /\
  (forall (recipes : list (gmap string string)) (block : string),
     accepted (scan_block block) = false -> add_block recipes block = recipes) /\
  (forall t : string,
     parsed_recipes t =
     post_process <$> List.filter accepted (scan_block <$> findall t)).
Proof.
  split; [|split; [|split]].
  - intros d. unfold accepted.
    rewrite andb_true_iff, orb_true_iff, !has_spec. reflexivity.
  - intros recipes block H. unfold add_block. rewrite H.
    split; [reflexivity | apply post_process_name].
  - intros recipes block H. unfold add_block. now rewrite H.
  - apply parsed_recipes_filter.
Qed.

Lemma block_acceptance_witness :
  add_block [] ("Meal Name: Soup" ++ nl ++ "Ingredients:" ++ nl ++ "- water") =
    [post_process
       (scan_block ("Meal Name: Soup" ++ nl ++ "Ingredients:" ++ nl ++ "- water"))] /\
  add_block [] ("Meal Name: Soup" ++ nl ++ "Taste Profile: mild") = [].
Proof.
  destruct block_acceptance as (_ & Hyes & Hno & _). split.
  - apply (Hyes [] ("Meal Name: Soup" ++ nl ++ "Ingredients:" ++ nl ++ "- water")).
    vm_compute. reflexivity.
  - apply (Hno [] ("Meal Name: Soup" ++ nl ++ "Taste Profile: mild")).
    vm_compute. reflexivity.
Defined.

(** C7: on a text longer than 50 characters from which no block is
    accepted the parser returns the one fallback record, whose
    instructions are that text, and parsing these instructions again
    returns the same list. *)
Theorem fallback_round_trip (t : string) :
  (50 < len t)%Z -> parsed_recipes t = [] ->
  parse_multi_recipes t = [fallback_record t] /\
  fallback_record t !! "instructions" = Some t /\
  (forall (r : gmap string string) (again : string),
     In r (parse_multi_recipes t) -> r !! "instructions" = Some again ->
     parse_multi_recipes again = [fallback_record t]).
Proof.
  intros Hl H. pose proof (parse_long t H Hl) as Hp.
  split; [exact Hp|]. split; [apply fallback_instructions|].
  intros r again Hr Hi. rewrite Hp in Hr. destruct Hr as [<-|[]].
  rewrite fallback_instructions in Hi. injection Hi as <-. exact Hp.
Qed.

Lemma fallback_round_trip_witness :
  parse_multi_recipes
    "--- RECIPE START --- Meal Name: Soup, but the end marker never comes" =
  [fallback_record
     "--- RECIPE START --- Meal Name: Soup, but the end marker never comes"].
Proof.
  apply (fallback_round_trip
           "--- RECIPE START --- Meal Name: Soup, but the end marker never comes");
    vm_compute; reflexivity.
Defined.

End RecipeParser.

(** ** Meal checker: the three extractions *)

Section CheckerParser.
Import PyStr PyRe app reference.

Lemma string_app_assoc (a b c : string) : (a ++ b) ++ c = a ++ b ++ c.
Proof. induction a as [|x a IH]; simpl; [reflexivity | now rewrite IH]. Qed.

Lemma search_after_eq (h s : string) :
  search_after h s =
  match imatch h s with
  | Some r => Some r
  | None =>
      match s with
      | EmptyString => None
      | String _ s' => search_after h s'
      end
  end.
Proof. destruct s; reflexivity. Qed.

Lemma forallb_seq_shift (f : nat -> bool) (n : nat) :
  forallb f (seq 1 n) = forallb (fun k => f (S k)) (seq 0 n).
Proof.
  rewrite <- seq_shift. generalize (seq 0 n) as l.
  induction l as [|k l IH]; simpl; [reflexivity | now rewrite IH].
Qed.

(** [re.search] stops at the first match. *)
Lemma search_after_first (h text : string) (n : nat) :
  first_at h text n = true ->
  search_after h text = Some (drop (n + String.length h) text).
Proof.
  revert text. induction n as [|n IH]; intros text H;
    unfold first_at in H; apply andb_prop in H as [Hn Hb].
  - unfold occurs_at in Hn. simpl in Hn.
    rewrite search_after_eq, imatch_startswith, Hn. reflexivity.
  - cbn [seq forallb] in Hb. apply andb_prop in Hb as [H0 Hb].
    apply negb_true_iff in H0. unfold occurs_at in H0. simpl in H0.
    rewrite search_after_eq, imatch_startswith, H0.
    destruct text as [|c text].
    + unfold occurs_at in Hn. simpl in Hn, H0. congruence.
    + rewrite forallb_seq_shift in Hb. apply IH.
      unfold first_at. apply andb_true_intro. split; assumption.
Qed.

Lemma search_after_absent (h text : string) :
  absent h text = true -> search_after h text = None.
Proof.
  unfold absent, occurs. intros H. apply negb_true_iff in H.
  now apply search_after_none.
Qed.

Lemma drop_suffix (n : nat) (s : string) : exists pre, s = pre ++ drop n s.
Proof.
  revert s. induction n as [|n IH]; intros s.
  - now exists EmptyString.
  - destruct s as [|c s]; [now exists EmptyString|].
    destruct (IH s) as [pre H]. exists (String c pre). simpl. now rewrite <- H.
Qed.

Lemma lstrip_suffix (s : string) : exists pre, s = pre ++ lstrip s.
Proof.
  induction s as [|c s [pre H]]; [now exists EmptyString|]. simpl.
  destruct (isspace c); [|now exists EmptyString].
  exists (String c pre). simpl. now rewrite <- H.
Qed.

Lemma occurs_suffix (p pre s : string) :
  occurs p s = true -> occurs p (pre ++ s) = true.
Proof.
  rewrite !occurs_spec. intros (a & u & b & -> & Hu).
  exists (pre ++ a), u, b. now rewrite string_app_assoc.
Qed.

Lemma occurs_longer (q p s : string) :
  occurs (q ++ p) s = true -> occurs p s = true.
Proof.
  rewrite !occurs_spec. intros (a & u & b & -> & Hu).
  rewrite lower_app in Hu. apply lower_split in Hu as (u1 & u2 & -> & _ & Hu).
  exists (a ++ u1), u2, b. now rewrite !string_app_assoc.
Qed.

Lemma absent_drop (p s : string) (n : nat) :
  absent p s = true -> absent p (drop n s) = true.
Proof.
  unfold absent. rewrite !negb_true_iff, <- !not_true_iff_false.
  intros H Hd. apply H. destruct (drop_suffix n s) as [pre E].
  rewrite E. now apply occurs_suffix.
Qed.

Lemma absent_lstrip (p s : string) :
  absent p s = true -> absent p (lstrip s) = true.
Proof.
  unfold absent. rewrite !negb_true_iff, <- !not_true_iff_false.
  intros H Hd. apply H. destruct (lstrip_suffix s) as [pre E].
  rewrite E. now apply occurs_suffix.
Qed.

Lemma occurs_head (stop s : string) :
  imatch stop s <> None -> occurs stop s = true.
Proof.
  rewrite imatch_startswith. unfold occurs.
  destruct (startswith (lower stop) (lower s)) eqn:E; [|congruence].
  intros _. now apply contains_startswith.
Qed.

(** Without a later match of [stop] the lazy group runs to the end. *)
Lemma lazy_until_absent (stop s : string) :
  absent stop s = true -> lazy_until stop s = s.
Proof.
  induction s as [|c s IH]; intros H; simpl; [reflexivity|].
  destruct (imatch stop (String c s)) eqn:E.
  - unfold absent in H. rewrite occurs_head in H; [discriminate | congruence].
  - f_equal. apply IH. apply (absent_drop stop (String c s) 1 H).
Qed.

Lemma absent_longer (q p s : string) :
  absent p s = true -> absent (q ++ p) s = true.
Proof.
  unfold absent. rewrite !negb_true_iff, <- !not_true_iff_false.
  intros H Hq. apply H. now apply occurs_longer in Hq.
Qed.

Lemma group_or_absent (h text placeholder : string) (f : string -> string) :
  absent h text = true ->
  group_or (match search_after h text with Some r => Some (f r) | None => None end)
           placeholder = placeholder.
Proof. intros H. now rewrite (search_after_absent _ _ H). Qed.

Lemma group_or_first (h text placeholder : string) (f : string -> string) (n : nat) :
  first_at h text n = true ->
  group_or (match search_after h text with Some r => Some (f r) | None => None end)
           placeholder = strip (f (drop (n + String.length h) text)).
Proof. intros H. now rewrite (search_after_first _ _ _ H). Qed.

Lemma assessment_absent (text : string) :
  absent "## Healthiness Assessment" text = true ->
  assessment_text_of text = "Assessment could not be extracted.".
Proof.
  intros H. unfold assessment_text_of, assessment_match.
  apply (group_or_absent _ _ _ (fun r => skip_nl (skip_ws r)) H).
Qed.

(** C5: the three extractions are total functions of the text.  A
    heading that matches nowhere, ignoring case, gives its field the
    placeholder; a heading whose first match is at offset [n] gives the
    field the text extracted after that match.  When only the assessment
    heading is missing, the assessment is the placeholder while the meal
    name and the nutrition text are still taken from their headings. *)
Theorem checker_parser_fields (text : string) :
  (absent "## Meal Name" text = true ->
     meal_name_of text = "Unknown Meal (Parsing Failed)") /\
  (absent "## Estimated Nutrition" text = true ->
     nutrition_text_of text = "Nutrition info could not be extracted.") /\
  (absent "## Healthiness Assessment" text = true ->
     assessment_text_of text = "Assessment could not be extracted.") /\
  (forall n, first_at "## Meal Name" text n = true ->
     meal_name_of text = strip (dot_star (lstrip (drop (n + 12) text)))) /\
  (forall n, first_at "## Estimated Nutrition" text n = true ->
     nutrition_text_of text =
     strip (lazy_until (nl ++ "## Healthiness Assessment")
              (lstrip (drop (n + 22) text)))) /\
  (forall n, first_at "## Healthiness Assessment" text n = true ->
     assessment_text_of text = strip (drop (n + 25) text)) /\
  (forall n m,
     absent "## Healthiness Assessment" text = true ->
     first_at "## Meal Name" text n = true ->
     first_at "## Estimated Nutrition" text m = true ->
     assessment_text_of text = "Assessment could not be extracted." /\
     meal_name_of text = strip (dot_star (lstrip (drop (n + 12) text))) /\
     nutrition_text_of text = strip (drop (m + 22) text)).
Proof.
  assert (Hm : forall n, first_at "## Meal Name" text n = true ->
     meal_name_of text = strip (dot_star (lstrip (drop (n + 12) text)))).
  { intros n H. unfold meal_name_of, meal_name_match.
    rewrite (group_or_first _ _ _ (fun r => dot_star (skip_nl (skip_ws r))) _ H).
    now rewrite skip_nl_skip_ws. }
  assert (Hn : forall n, first_at "## Estimated Nutrition" text n = true ->
     nutrition_text_of text =
     strip (lazy_until (nl ++ "## Healthiness Assessment")
              (lstrip (drop (n + 22) text)))).
  { intros n H. unfold nutrition_text_of, nutrition_match.
    rewrite (group_or_first _ _ _
               (fun r => lazy_until (nl ++ assessment_heading) (skip_nl (skip_ws r))) _ H).
    now rewrite skip_nl_skip_ws. }
  pose proof (assessment_absent text) as Ha.
  split; [|split; [|split; [|split; [|split; [|split]]]]].
  - intros H. unfold meal_name_of, meal_name_match.
    apply (group_or_absent _ _ _ (fun r => dot_star (skip_nl (skip_ws r))) H).
  - intros H. unfold nutrition_text_of, nutrition_match.
    apply (group_or_absent _ _ _
             (fun r => lazy_until (nl ++ assessment_heading) (skip_nl (skip_ws r))) H).
  - exact Ha.
  - exact Hm.
  - exact Hn.
  - intros n H. unfold assessment_text_of, assessment_match.
    rewrite (group_or_first _ _ _ (fun r => skip_nl (skip_ws r)) _ H).
    now rewrite skip_nl_skip_ws, strip_lstrip.
  - intros n m Habs H1 H2. split; [now apply Ha|]. split; [now apply Hm|].
    rewrite (Hn m H2), lazy_until_absent, strip_lstrip; [reflexivity|].
    apply absent_longer, absent_lstrip, absent_drop, Habs.
Qed.

Lemma checker_parser_fields_witness :
  assessment_text_of samples.answer_without_assessment =
    "Assessment could not be extracted." /\
  meal_name_of samples.answer_without_assessment = "Lentil soup" /\
  nutrition_text_of samples.answer_without_assessment = "300 kcal".
Proof.
  destruct (checker_parser_fields samples.answer_without_assessment)
    as (_ & _ & _ & _ & _ & _ & H).
  apply (H 0 25); vm_compute; reflexivity.
Defined.

End CheckerParser.

(** ** Meal checker: score and log *)

Section CheckerFlow.
Import PyStr PyRe app reference database.

Lemma placeholder_score : calculate_meal_score assessment_placeholder = 1%Z.
Proof. vm_compute. reflexivity. Qed.

Lemma checker_score (o1 o2 : outcome) (now uid : Z) (filename text : string) (d : db) :
  snd (checker o1 o2 now uid filename text d) =
  calculate_meal_score (assessment_text_of text).
Proof. reflexivity. Qed.

Lemma checker_total (o1 : outcome) (now uid : Z) (filename text : string)
    (d : db) (u : user) :
  users d !! uid = Some u ->
  total_health_score <$> users (fst (checker o1 Commit now uid filename text d)) !! uid =
  Some (total_health_score u + calculate_meal_score (assessment_text_of text))%Z.
Proof.
  intros H. unfold checker. cbn [fst update_user_score users].
  rewrite lookup_alter_eq.
  assert (E : users (fst (add_checked_meal o1 now uid (meal_name_of text)
               (nutrition_text_of text) (assessment_text_of text)
               (calculate_meal_score (assessment_text_of text))
               (Some filename) d)) = users d) by now destruct o1.
  rewrite E, H. reflexivity.
Qed.

Lemma checker_rows (o2 : outcome) (now uid : Z) (filename text : string) (d : db) :
  checked_meals (fst (checker Commit o2 now uid filename text d)) =
  (checked_meals d ++
   [{| user_id := uid; checked_at := now;
       meal_name := meal_name_of text;
       estimated_nutrition := nutrition_text_of text;
       health_assessment := assessment_text_of text;
       assigned_score := calculate_meal_score (assessment_text_of text);
       image_filename := Some filename |}])%list.
Proof. now destruct o2. Qed.

(** C8: when the insert and the update both commit, the row appended to
    checked_meals carries as assigned_score the very value added to its
    owner's total_health_score: the one result of calculate_meal_score on
    the extracted assessment text. *)
Theorem checker_score_consistent (now uid : Z) (filename text : string)
    (d : db) (u : user) :
  users d !! uid = Some u ->
  exists (row : checked_meal) (u' : user),
    checked_meals (fst (checker Commit Commit now uid filename text d)) =
      (checked_meals d ++ [row])%list /\
    user_id row = uid /\
    health_assessment row = assessment_text_of text /\
    users (fst (checker Commit Commit now uid filename text d)) !! uid = Some u' /\
    assigned_score row = calculate_meal_score (assessment_text_of text) /\
    total_health_score u' = (total_health_score u + assigned_score row)%Z /\
    snd (checker Commit Commit now uid filename text d) = assigned_score row.
Proof.
  intros H.
  pose proof (checker_total Commit now uid filename text d u H) as Ht.
  destruct (users (fst (checker Commit Commit now uid filename text d)) !! uid)
    as [u'|] eqn:E; [|discriminate].
  injection Ht as Ht.
  eexists _, u'. split; [apply checker_rows|]. cbn [user_id health_assessment assigned_score].
  repeat split; try reflexivity. exact Ht.
Qed.

Lemma checker_score_consistent_witness :
  exists (row : checked_meal) (u' : user),
    checked_meals (fst (checker Commit Commit 1730000000 1 "meal.jpg"
                          samples.answer_complete samples.one_user)) = [row] /\
    users (fst (checker Commit Commit 1730000000 1 "meal.jpg"
                  samples.answer_complete samples.one_user)) !! 1%Z = Some u' /\
    assigned_score row = (-6)%Z /\
    total_health_score u' = 1%Z.
Proof.
  destruct (checker_score_consistent 1730000000 1 "meal.jpg"
              samples.answer_complete samples.one_user samples.ana)
    as (row & u' & Hr & _ & _ & Hu & Hs & Ht & _).
  - vm_compute. reflexivity.
  - exists row, u'. split; [exact Hr|]. split; [exact Hu|].
    assert (E : calculate_meal_score (assessment_text_of samples.answer_complete) = (-6)%Z)
      by (vm_compute; reflexivity).
    rewrite E in Hs. split; [exact Hs|]. rewrite Ht, Hs. reflexivity.
Defined.

(** C9: when the assessment heading matches nowhere, the text that is
    scored is the placeholder itself, in which no keyword phrase occurs
    and which is longer than 10 characters: the assigned score is 1, and
    a committed update raises the total of the user by 1. *)
Theorem failed_extraction_scores_one (o1 o2 : outcome) (now uid : Z)
    (filename text : string) (d : db) (u : user) :
  absent "## Healthiness Assessment" text = true ->
  users d !! uid = Some u ->
  assessment_text_of text = "Assessment could not be extracted." /\
  no_keyword "Assessment could not be extracted." = true /\
  (10 < len "Assessment could not be extracted.")%Z /\
  snd (checker o1 o2 now uid filename text d) = 1%Z /\
  (assigned_score <$> last (checked_meals (fst (checker Commit o2 now uid filename text d)))
     = Some 1%Z) /\
  (total_health_score <$> users (fst (checker o1 Commit now uid filename text d)) !! uid
     = Some (total_health_score u + 1)%Z).
Proof.
  intros Ha Hu.
  assert (E : assessment_text_of text = assessment_placeholder)
    by now apply assessment_absent.
  split; [exact E|]. split; [vm_compute; reflexivity|].
  split; [vm_compute; reflexivity|]. split; [|split].
  - now rewrite checker_score, E, placeholder_score.
  - rewrite checker_rows, last_snoc. cbn [fmap option_fmap option_map assigned_score].
    now rewrite E, placeholder_score.
  - rewrite (checker_total o1 now uid filename text d u Hu).
    now rewrite E, placeholder_score.
Qed.

Lemma failed_extraction_scores_one_witness :
  snd (checker Commit Commit 1730000000 1 "meal.jpg"
         samples.answer_without_assessment samples.one_user) = 1%Z /\
  total_health_score <$>
    users (fst (checker Commit Commit 1730000000 1 "meal.jpg"
                  samples.answer_without_assessment samples.one_user)) !! 1%Z
    = Some 8%Z.
Proof.
  destruct (failed_extraction_scores_one Commit Commit 1730000000 1 "meal.jpg"
              samples.answer_without_assessment samples.one_user samples.ana)
    as (_ & _ & _ & Hs & _ & Ht).
  - vm_compute. reflexivity.
  - vm_compute. reflexivity.
  - split; [exact Hs | exact Ht].
Defined.

End CheckerFlow.

(** ** Further properties of the Score Calculator *)

Section ScoreRange.
Import PyStr app reference.

Lemma keyword_sum_range (s : string) : (-7 <= keyword_sum s <= 10)%Z.
Proof.
  unfold keyword_sum, phrase_groups. cbn [List.filter].
  repeat match goal with
         | |- context [if group_fires s ?g then _ else _] =>
             destruct (group_fires s g)
         end; cbn; lia.
Qed.

(** The score always lies between -7 and 10. *)
Theorem score_range (s : string) : (-7 <= calculate_meal_score s <= 10)%Z.
Proof.
  rewrite calculate_meal_score_eq. pose proof (keyword_sum_range s).
  destruct ((keyword_sum s =? 0)%Z && (10 <? len s)%Z); lia.
Qed.

(** A text longer than 10 characters never scores 0, even when its
    keyword deltas cancel: a score of 0 is left to texts of at most 10
    characters. *)
Theorem score_zero_short (s : string) :
  calculate_meal_score s = 0%Z -> (len s <= 10)%Z /\ keyword_sum s = 0%Z.
Proof.
  rewrite calculate_meal_score_eq.
  destruct (keyword_sum s =? 0)%Z eqn:E; simpl.
  - apply Z.eqb_eq in E. destruct (10 <? len s)%Z eqn:L; [discriminate|].
    apply Z.ltb_ge in L. now intros _.
  - apply Z.eqb_neq in E. intros H. contradiction.
Qed.

Lemma score_zero_short_witness :
  (len "fine" <= 10)%Z /\ keyword_sum "fine" = 0%Z.
Proof. apply (score_zero_short "fine"). vm_compute. reflexivity. Defined.

Lemma unhealthy_healthy (s : string) :
  occurs "unhealthy" s = true -> occurs "healthy" s = true.
Proof. apply (occurs_longer "un" "healthy"). Qed.

(** "unhealthy" contains "healthy": a text in which it occurs gets the
    +5 of the first group together with the -4 of the fourth, so its score
    is at least -2, and it is 1 when no other phrase occurs. *)
Theorem unhealthy_counts_healthy (s : string) :
  occurs "unhealthy" s = true ->
  (-2 <= calculate_meal_score s <= 6)%Z /\
  (matches_only ["unhealthy"; "healthy"] s = true -> calculate_meal_score s = 1%Z).
Proof.
  intros Hu. pose proof (unhealthy_healthy s Hu) as Hh.
  rewrite calculate_meal_score_eq.
  assert (E : keyword_sum s =
              (1 + sum_deltas snd
                     (List.filter (group_fires s)
                        [ (["low sugar"; "low fat"; "low sodium"], 2%Z);
                          (["high fiber"; "good source of protein"], 3%Z);
                          (["low protein"; "low fiber"], (-1)%Z);
                          (["be cautious"; "consider alternatives"], (-2)%Z) ]))%Z).
  { unfold keyword_sum, phrase_groups, group_fires.
    cbn [List.filter existsb fst]. rewrite Hu, Hh, !orb_true_r. cbn [orb].
    repeat match goal with
           | |- context [if ?b then _ else _] => destruct b
           end; reflexivity. }
  split.
  - rewrite E. cbn [List.filter]. destruct (10 <? len s)%Z;
    repeat match goal with
           | |- context [if group_fires s ?g then _ else _] =>
               destruct (group_fires s g)
           end;
    match goal with
    | |- context [Z.eqb ?a ?b] => destruct (Z.eqb a b)
    end; cbn [andb sum_deltas fold_right snd]; lia.
  - intros Ho. unfold matches_only in Ho. cbn -[occurs] in Ho.
    repeat (apply andb_prop in Ho as [? Ho]).
    repeat match goal with
           | H : negb _ = true |- _ => apply negb_true_iff in H
           end.
    rewrite E. unfold group_fires. cbn [List.filter existsb fst].
    repeat match goal with
           | H : occurs _ _ = false |- _ => rewrite H
           end.
    reflexivity.
Qed.

Lemma unhealthy_counts_healthy_witness :
  calculate_meal_score "This looks unhealthy." = 1%Z.
Proof.
  apply (unhealthy_counts_healthy "This looks unhealthy."); vm_compute; reflexivity.
Defined.

End ScoreRange.

(** ** Further properties of the rule engine *)

Section RuleEngineRange.
Import PyStr app reference.

(** Whatever the estimate and the conditions, the engine gives at most
    five notes and a delta between -6 and 3; without a note the delta
    is 0. *)
Theorem rule_engine_range (n : gmap string Q) (p : gmap string value)
    (notes : list string) (delta : Z) :
  apply_rule_engine n p = Some (notes, delta) ->
  length notes <= 5 /\ (-6 <= delta <= 3)%Z /\ (notes = [] -> delta = 0%Z).
Proof.
  rewrite apply_rule_engine_table.
  assert (G : forall c, rule_engine n c = (notes, delta) ->
            length notes <= 5 /\ (-6 <= delta <= 3)%Z /\ (notes = [] -> delta = 0%Z)).
  { intros c. unfold rule_engine, rule_table. cbn [List.filter].
    repeat match goal with
           | |- context [if applies ?r c ?a then _ else _] => destruct (applies r c a)
           end; intros [= <- <-]; cbn; repeat split; try lia; discriminate. }
  destruct (p !! "health_conditions") as [[| |c]|]; try discriminate;
    intros H; [apply (G c) | apply (G "")]; congruence.
Qed.

Lemma rule_engine_range_witness :
  length ["High estimated sodium content; consider for hypertension.";
          "This meal appears relatively high in fat.";
          "Good source of dietary fiber."] <= 5.
Proof.
  apply (rule_engine_range
           (<["sodium" := 900%Q]> (<["fat" := 38%Q]> {[ "fiber" := 8%Q ]}))
           {[ "health_conditions" := VStr "Hypertension" ]}
           _ (-1)%Z).
  vm_compute. reflexivity.
Defined.

Lemma gt_le_false (x : Q) (n : Z) : (x <= inject_Z n)%Q -> gt x n = false.
Proof.
  intros H. apply not_true_iff_false. rewrite gt_lt. now apply Qle_not_lt.
Qed.

(** The thresholds are strict: an estimate whose sugar, sodium, fat, fiber
    and protein are at most 25, 800, 35, 7 and 30, the empty estimate
    among them, gives no note and delta 0 under any conditions text. *)
Theorem rule_engine_at_thresholds (n : gmap string Q) (conditions : string) :
  (get0 n "sugar" <= 25)%Q -> (get0 n "sodium" <= 800)%Q ->
  (get0 n "fat" <= 35)%Q -> (get0 n "fiber" <= 7)%Q ->
  (get0 n "protein" <= 30)%Q ->
  apply_rule_engine n {[ "health_conditions" := VStr conditions ]} = Some ([], 0%Z).
Proof.
  intros H1 H2 H3 H4 H5. rewrite apply_rule_engine_table, lookup_singleton_eq.
  unfold rule_engine, rule_table. cbn [List.filter applies].
  rewrite <- !gt_above. change (amount_of n) with (get0 n).
  rewrite (gt_le_false _ 25 H1), (gt_le_false _ 800 H2), (gt_le_false _ 35 H3),
    (gt_le_false _ 7 H4), (gt_le_false _ 30 H5), !andb_false_r.
  reflexivity.
Qed.

Lemma rule_engine_at_thresholds_witness :
  apply_rule_engine
    (<["sugar" := 25%Q]> (<["sodium" := 800%Q]> (<["fat" := 35%Q]>
       (<["fiber" := 7%Q]> {[ "protein" := 30%Q ]}))))
    {[ "health_conditions" := VStr "diabetes, hypertension" ]} = Some ([], 0%Z).
Proof.
  apply rule_engine_at_thresholds; vm_compute; discriminate.
Defined.

End RuleEngineRange.

(** ** Further properties of the recipe parser *)

Section RecipeRecords.
Import PyStr PyRe app reference props.

Lemma find_key_in (line : string) (km : list (string * string)) (kt kj : string) :
  find_key line km = Some (kt, kj) -> In kj (snd <$> km).
Proof.
  induction km as [|[a b] km IH]; simpl; [discriminate|].
  destruct (startswith (a ++ ":") (lower line)).
  - intros [= _ <-]. now left.
  - intros H. right. now apply IH.
Qed.

Lemma flush_keys (st : scan) (k : string) :
  scan_ok st -> is_Some (flush st !! k) -> In k field_names.
Proof.
  intros [Hd Hc]. unfold flush.
  destruct (current_key st) as [ck|] eqn:E; [|apply Hd].
  destruct (truthy ck); [|apply Hd].
  destruct (decide (ck = k)) as [<-|Hne].
  - intros _. now apply Hc.
  - rewrite lookup_insert_ne by exact Hne. apply Hd.
Qed.

Lemma scan_line_ok (st : scan) (line : string) : scan_ok st -> scan_ok (scan_line st line).
Proof.
  intros H. unfold scan_line.
  destruct (negb (truthy (strip line))); [exact H|].
  destruct (find_key (strip line) key_map) as [[kt kj]|] eqn:E.
  - split; cbn [recipe_data current_key].
    + intros k. now apply flush_keys.
    + intros k [= <-]. now apply find_key_in in E.
  - destruct (key_set (current_key st)); [|exact H].
    destruct H as [Hd Hc]. split; assumption.
Qed.

Lemma fold_scan_ok (lines : list string) (st : scan) :
  scan_ok st -> scan_ok (fold_left scan_line lines st).
Proof.
  revert st. induction lines as [|l lines IH]; intros st H; simpl; [exact H|].
  apply IH. now apply scan_line_ok.
Qed.

Lemma scan_block_keys (block k : string) :
  is_Some (scan_block block !! k) -> In k field_names.
Proof.
  unfold scan_block. apply flush_keys, fold_scan_ok.
  split; cbn [recipe_data current_key].
  - intros k' [v H]. now rewrite lookup_empty in H.
  - discriminate.
Qed.

Lemma clean_field_keys (key chars k : string) (d : gmap string string) :
  is_Some (clean_field key chars d !! k) -> is_Some (d !! k).
Proof.
  unfold clean_field, has. destruct (d !! key) as [v|] eqn:E; [|easy].
  destruct (truthy v); [|easy].
  destruct (decide (key = k)) as [<-|Hne].
  - intros _. now exists v.
  - now rewrite lookup_insert_ne.
Qed.

Lemma post_process_keys (d : gmap string string) (k : string) :
  is_Some (post_process d !! k) -> is_Some (d !! k) \/ k = "youtube_search_url".
Proof.
  unfold post_process, add_search_url.
  set (d' := clean_field "instructions" _ _).
  assert (G : is_Some (d' !! k) -> is_Some (d !! k)).
  { intros H. unfold d' in H. now apply clean_field_keys, clean_field_keys in H. }
  destruct (d' !! "youtube_search_terms") as [t|]; [|auto].
  destruct (truthy t); [|auto].
  destruct (decide ("youtube_search_url" = k)) as [<-|Hne]; [now right|].
  rewrite lookup_insert_ne by exact Hne. auto.
Qed.

Lemma parsed_recipes_in (t : string) (r : gmap string string) :
  In r (parsed_recipes t) ->
  exists block, r = post_process (scan_block block) /\ accepted (scan_block block) = true.
Proof.
  rewrite parsed_recipes_filter. intros H.
  apply list_elem_of_In, list_elem_of_fmap in H as (d & -> & H).
  apply list_elem_of_In, filter_In in H as [H Ha].
  apply list_elem_of_In, list_elem_of_fmap in H as (b & -> & _).
  now exists b.
Qed.

Lemma parse_multi_recipes_in (t : string) (r : gmap string string) :
  In r (parse_multi_recipes t) -> r = fallback_record t \/ In r (parsed_recipes t).
Proof.
  unfold parse_multi_recipes.
  destruct (negb _ && (50 <? len t)%Z); [|now right].
  intros [<-|[]]. now left.
Qed.

Lemma accepted_named (block : string) :
  accepted (scan_block block) = true -> has (post_process (scan_block block)) "name" = true.
Proof.
  intros Ha. unfold has. rewrite post_process_name.
  unfold accepted in Ha. apply andb_prop in Ha as [Hn _]. exact Hn.
Qed.

(** Every record the parser returns, the fallback record included, has a
    non-empty name. *)
Theorem records_are_named (t : string) (r : gmap string string) :
  In r (parse_multi_recipes t) -> has r "name" = true.
Proof.
  intros H. apply parse_multi_recipes_in in H as [->|H].
  - reflexivity.
  - apply parsed_recipes_in in H as (b & -> & Ha). now apply accepted_named.
Qed.

Lemma records_are_named_witness :
  List.Forall (fun r => has r "name" = true) (parse_multi_recipes samples.two_recipes).
Proof.
  apply List.Forall_forall. intros r H.
  apply (records_are_named samples.two_recipes r H).
Defined.

(** The keys of a returned record are among the seven field names of
    [key_map] and youtube_search_url: text of the answer never becomes a
    key. *)
Theorem record_keys_known (t : string) (r : gmap string string) (k : string) :
  In r (parse_multi_recipes t) -> is_Some (r !! k) -> In k record_keys.
Proof.
  intros H Hk. apply parse_multi_recipes_in in H as [->|H].
  - unfold fallback_record in Hk.
    destruct (decide ("name" = k)) as [<-|N1]; [simpl; tauto|].
    rewrite lookup_insert_ne in Hk by exact N1.
    destruct (decide ("instructions" = k)) as [<-|N2]; [simpl; tauto|].
    rewrite lookup_insert_ne, lookup_empty in Hk by exact N2.
    now destruct Hk.
  - apply parsed_recipes_in in H as (b & -> & _).
    apply post_process_keys in Hk as [Hk| ->]; [|simpl; tauto].
    apply scan_block_keys in Hk. unfold record_keys.
    change field_names with ["name"; "youtube_search_terms"; "prep_time"; "taste";
                             "ingredients"; "instructions"; "nutrition"] in Hk.
    simpl in Hk |- *. tauto.
Qed.

Lemma record_keys_known_witness :
  In "name" record_keys.
Proof.
  apply (record_keys_known "No recipes today, I am afraid; please ask me again later."
           (fallback_record "No recipes today, I am afraid; please ask me again later.")).
  - vm_compute. now left.
  - now exists fallback_name.
Defined.

Lemma block_url (b : string) :
  post_process (scan_block b) !! "youtube_search_url" =
  match post_process (scan_block b) !! "youtube_search_terms" with
  | Some terms =>
      if truthy terms
      then Some ("https://www.youtube.com/results?search_query="
                 ++ urllib_parse.quote_plus terms)
      else None
  | None => None
  end.
Proof.
  assert (Hu : scan_block b !! "youtube_search_url" = None).
  { destruct (scan_block b !! "youtube_search_url") as [v|] eqn:E; [|reflexivity].
    assert (Hin : In "youtube_search_url" field_names)
      by (apply (scan_block_keys b); rewrite E; now exists v).
    vm_compute in Hin. intuition discriminate. }
  unfold post_process, add_search_url.
  set (d' := clean_field "instructions" _ _).
  assert (Hu' : d' !! "youtube_search_url" = None)
    by (unfold d'; now rewrite !clean_field_other).
  destruct (d' !! "youtube_search_terms") as [terms|] eqn:E.
  - destruct (truthy terms) eqn:T.
    + rewrite lookup_insert_eq, lookup_insert_ne, E, T by discriminate. reflexivity.
    + now rewrite Hu', E, T.
  - now rewrite Hu', E.
Qed.

(** A returned record carries youtube_search_url exactly when its
    youtube_search_terms are non-empty, and the URL is then the search
    address followed by the quoted terms. *)
Theorem search_url_from_terms (t : string) (r : gmap string string) :
  In r (parsed_recipes t) ->
  r !! "youtube_search_url" =
  match r !! "youtube_search_terms" with
  | Some terms =>
      if truthy terms
      then Some ("https://www.youtube.com/results?search_query="
                 ++ urllib_parse.quote_plus terms)
      else None
  | None => None
  end.
Proof.
  intros H. apply parsed_recipes_in in H as (b & -> & _). apply block_url.
Qed.

Lemma search_url_from_terms_witness :
  List.Forall
    (fun r => r !! "youtube_search_url" =
              match r !! "youtube_search_terms" with
              | Some terms =>
                  if truthy terms
                  then Some ("https://www.youtube.com/results?search_query="
                             ++ urllib_parse.quote_plus terms)
                  else None
              | None => None
              end)
    (parsed_recipes samples.two_recipes).
Proof.
  apply List.Forall_forall. intros r H.
  apply (search_url_from_terms samples.two_recipes r H).
Defined.

(** A text without three consecutive hyphens holds no block: it gives
    the fallback record when it is longer than 50 characters and nothing
    otherwise. *)
Theorem no_hyphens_no_block (t : string) :
  contains "---" t = false ->
  parse_multi_recipes t = if (50 <? len t)%Z then [fallback_record t] else [].
Proof.
  intros H.
  assert (Ho : occurs "---" t = false).
  { apply not_true_iff_false. intros Ho. apply occurs_spec in Ho as (a & u & b & -> & Hu).
    assert (u = "---").
    { change (lower "---") with "---" in Hu.
      destruct u as [|c1 [|c2 [|c3 [|c4 u]]]]; simpl in Hu; try discriminate.
      injection Hu as H1 H2 H3.
      destruct c1 as [[] [] [] [] [] [] [] []]; try discriminate H1;
      destruct c2 as [[] [] [] [] [] [] [] []]; try discriminate H2;
      destruct c3 as [[] [] [] [] [] [] [] []]; try discriminate H3; reflexivity. }
    subst u. apply not_true_iff_false in H. apply H, contains_spec. now exists a, b. }
  unfold parse_multi_recipes, parsed_recipes. rewrite (findall_no_marker t Ho). reflexivity.
Qed.

Lemma no_hyphens_no_block_witness :
  parse_multi_recipes "Sorry - nothing today." = [].
Proof. apply (no_hyphens_no_block "Sorry - nothing today."). vm_compute. reflexivity. Defined.

Lemma all_chars_app (f : ascii -> bool) (a b : string) :
  all_chars f (a ++ b) = all_chars f a && all_chars f b.
Proof.
  induction a as [|c a IH]; simpl; [reflexivity|].
  now rewrite IH, andb_assoc.
Qed.

Lemma quote_char_plain (c : ascii) :
  all_chars url_char (urllib_parse.quote_char "" c) = true.
Proof. destruct c as [[] [] [] [] [] [] [] []]; vm_compute; reflexivity. Qed.

Lemma quote_char_space (c : ascii) :
  all_chars (fun x => url_char x || Ascii.eqb x " ") (urllib_parse.quote_char " " c) = true.
Proof. destruct c as [[] [] [] [] [] [] [] []]; vm_compute; reflexivity. Qed.

Lemma replace_space_plus_chars (s : string) :
  all_chars (fun x => url_char x || Ascii.eqb x " ") s = true ->
  all_chars url_char (replace_space_plus s) = true.
Proof.
  induction s as [|c s IH]; simpl; [reflexivity|].
  intros H. apply andb_prop in H as [Hc Hs]. rewrite (IH Hs), andb_true_r.
  destruct (Ascii.eqb c " "); [reflexivity|]. now rewrite orb_false_r in Hc.
Qed.

Lemma quote_plus_chars (s : string) :
  all_chars url_char (urllib_parse.quote_plus s) = true.
Proof.
  unfold urllib_parse.quote_plus. destruct (contains " " s).
  - apply replace_space_plus_chars.
    induction s as [|c s IH]; simpl; [reflexivity|].
    now rewrite all_chars_app, quote_char_space, IH.
  - induction s as [|c s IH]; simpl; [reflexivity|].
    now rewrite all_chars_app, quote_char_plain, IH.
Qed.

(** The query of a youtube_search_url holds only letters, digits and the
    marks [_.-~+%], whatever the search terms of the answer were: no
    space, ampersand, hash or quote reaches the URL. *)
Theorem search_url_is_safe (t : string) (r : gmap string string) (url : string) :
  In r (parsed_recipes t) -> r !! "youtube_search_url" = Some url ->
  exists query,
    url = "https://www.youtube.com/results?search_query=" ++ query /\
    all_chars url_char query = true.
Proof.
  intros H Hu. apply parsed_recipes_in in H as (b & -> & _). rewrite block_url in Hu.
  destruct (post_process (scan_block b) !! "youtube_search_terms") as [terms|];
    [|discriminate].
  destruct (truthy terms); [|discriminate]. injection Hu as <-.
  exists (urllib_parse.quote_plus terms). split; [reflexivity | apply quote_plus_chars].
Qed.

Lemma search_url_is_safe_witness :
  List.Forall
    (fun r => forall url, r !! "youtube_search_url" = Some url ->
       exists query,
         url = "https://www.youtube.com/results?search_query=" ++ query /\
         all_chars url_char query = true)
    (parsed_recipes samples.two_recipes).
Proof.
  apply List.Forall_forall. intros r H url.
  apply (search_url_is_safe samples.two_recipes r url H).
Defined.

End RecipeRecords.

(** ** The recommender route *)

Section Recommender.
Import PyStr PyRe app reference props.

(** A non-empty answer of the model always shows at least one record,
    and every record shown has a non-empty name. *)
Theorem recommender_never_empty (text : string) :
  text <> "" ->
  fst (recommender (Answer text)) <> [] /\
  (forall r, In r (fst (recommender (Answer text))) -> has r "name" = true).
Proof.
  intros Ht. apply truthy_nonempty in Ht. unfold recommender. cbv zeta.
  destruct (parse_multi_recipes text) as [|r0 l] eqn:E; cbn [negb andb]; rewrite ?Ht; cbn [fst].
  - split; [discriminate|]. intros r [<-|[]]. reflexivity.
  - split; [discriminate|]. intros r Hr. rewrite <- E in Hr.
    apply parse_multi_recipes_in in Hr as [->|Hr]; [reflexivity|].
    apply parsed_recipes_in in Hr as (b & -> & Ha). now apply accepted_named.
Qed.

Lemma recommender_never_empty_witness :
  fst (recommender (Answer "ok")) <> [].
Proof. apply (recommender_never_empty "ok"). discriminate. Defined.

(** The error message and the record named Raw AI Response are reserved
    to non-empty answers of at most 50 characters without an accepted
    block: a longer answer already got the fallback record of the parser,
    and is shown without any error message. *)
Theorem recommender_raw_only_short (text : string) (message : string) :
  snd (recommender (Answer text)) = Some message ->
  (0 < len text <= 50)%Z /\ parsed_recipes text = [] /\
  fst (recommender (Answer text)) = [raw_record text].
Proof.
  unfold recommender. cbv zeta.
  destruct (parse_multi_recipes text) as [|r0 l] eqn:E; cbn [negb andb]; [|discriminate].
  destruct (truthy text) eqn:T; [|discriminate]. intros _. cbn [fst].
  assert (L : (len text <= 50)%Z).
  { destruct (Z.le_gt_cases (len text) 50) as [L|L]; [exact L|].
    unfold parse_multi_recipes in E. apply Z.ltb_lt in L. rewrite L in E.
    destruct (parsed_recipes text); discriminate. }
  assert (P : parsed_recipes text = []).
  { unfold parse_multi_recipes in E. destruct (parsed_recipes text); [reflexivity|].
    cbn [negb andb] in E. discriminate. }
  repeat split; try assumption.
  destruct text; [discriminate | unfold len; simpl; lia].
Qed.

Lemma recommender_raw_only_short_witness :
  fst (recommender (Answer "No idea.")) = [raw_record "No idea."].
Proof.
  apply (recommender_raw_only_short "No idea."
           "Could not fully parse recipes from AI response. Displaying raw text.").
  vm_compute. reflexivity.
Defined.

End Recommender.

(** ** Uploads *)

Section AllowedFile.
Import PyStr app.

Lemma rsplit1_without (s : string) :
  contains "." s = false -> rsplit1 "." s = [s].
Proof.
  induction s as [|c s IH]; [reflexivity|]. intros H.
  cbn [contains] in H. apply orb_false_elim in H as [Hc Hs].
  cbn [rsplit1]. rewrite (IH Hs).
  cbn [startswith] in Hc. rewrite andb_true_r in Hc.
  rewrite Ascii.eqb_sym, Hc. reflexivity.
Qed.

Lemma rsplit1_last (stem ext : string) :
  contains "." ext = false -> rsplit1 "." (stem ++ "." ++ ext) = [stem; ext].
Proof.
  intros H. induction stem as [|c stem IH].
  - cbn. rewrite (rsplit1_without ext H). reflexivity.
  - cbn [String.append rsplit1]. cbn [String.append] in IH. now rewrite IH.
Qed.

Lemma last_dot (s : string) :
  contains "." s = true ->
  exists stem ext, s = stem ++ "." ++ ext /\ contains "." ext = false.
Proof.
  induction s as [|c s IH]; [discriminate|]. intros H.
  destruct (contains "." s) eqn:E.
  - destruct (IH eq_refl) as (stem & ext & -> & He). now exists (String c stem), ext.
  - cbn [contains] in H. rewrite E, orb_false_r in H.
    cbn [startswith] in H. rewrite andb_true_r in H. apply Ascii.eqb_eq in H. subst c.
    now exists EmptyString, s.
Qed.

(** [allowed_file] never raises: the test for a dot guards the index, and
    a name without a dot is refused. *)
Theorem allowed_file_total (filename : string) :
  allowed_file filename <> None /\
  (contains "." filename = false -> allowed_file filename = Some false).
Proof.
  unfold allowed_file. destruct (contains "." filename) eqn:E.
  - split; [|discriminate].
    destruct (last_dot filename E) as (stem & ext & -> & He).
    rewrite (rsplit1_last stem ext He). discriminate.
  - split; [discriminate | reflexivity].
Qed.

Lemma allowed_file_total_witness :
  allowed_file "README" = Some false.
Proof. apply (allowed_file_total "README"). reflexivity. Defined.

Lemma allowed_file_cut (stem ext : string) :
  contains "." ext = false ->
  allowed_file (stem ++ "." ++ ext) =
  Some (existsb (String.eqb (lower ext)) ALLOWED_EXTENSIONS).
Proof.
  intros He. unfold allowed_file.
  assert (E : contains "." (stem ++ "." ++ ext) = true)
    by (apply contains_spec; now exists stem, ext).
  rewrite E, (rsplit1_last stem ext He). reflexivity.
Qed.

(** Only the text after the last dot counts, compared in lower case: a
    name is accepted exactly when that text is png, jpg, jpeg, gif or
    webp up to case. *)
Theorem allowed_file_last_extension (stem ext : string) :
  contains "." ext = false ->
  allowed_file (stem ++ "." ++ ext) =
  Some (existsb (String.eqb (lower ext)) ["png"; "jpg"; "jpeg"; "gif"; "webp"]).
Proof. intros He. now apply allowed_file_cut. Qed.

Lemma allowed_file_last_extension_witness :
  allowed_file "holiday.photo.JPG" = Some true /\
  allowed_file "photo.png.exe" = Some false.
Proof.
  split.
  - apply (allowed_file_last_extension "holiday.photo" "JPG"). reflexivity.
  - apply (allowed_file_last_extension "photo.png" "exe"). reflexivity.
Defined.

(** An accepted name ends in a dot followed by one of the five
    extensions, up to case. *)
Theorem allowed_file_accepts (filename : string) :
  allowed_file filename = Some true ->
  exists stem ext,
    filename = stem ++ "." ++ ext /\ contains "." ext = false /\
    In (lower ext) ALLOWED_EXTENSIONS.
Proof.
  intros H. destruct (contains "." filename) eqn:E.
  - destruct (last_dot filename E) as (stem & ext & -> & He).
    exists stem, ext. split; [reflexivity|]. split; [exact He|].
    rewrite (allowed_file_cut stem ext He) in H.
    assert (Hb : existsb (String.eqb (lower ext)) ALLOWED_EXTENSIONS = true)
      by congruence.
    apply existsb_exists in Hb as (x & Hx & Hq). apply String.eqb_eq in Hq. now subst x.
  - unfold allowed_file in H. rewrite E in H. discriminate.
Qed.

Lemma allowed_file_accepts_witness :
  exists stem ext,
    "meal.WebP" = stem ++ "." ++ ext /\ contains "." ext = false /\
    In (lower ext) ALLOWED_EXTENSIONS.
Proof. apply (allowed_file_accepts "meal.WebP"). vm_compute. reflexivity. Defined.

End AllowedFile.

(** ** Further properties of the three extractions *)

Section CheckerFields.
Import PyStr PyRe app reference props.

Lemma rstrip_cons (c : ascii) (s : string) :
  rstrip (String c s) =
  match rstrip s with
  | EmptyString => if isspace c then EmptyString else String c EmptyString
  | String d r => String c (String d r)
  end.
Proof. reflexivity. Qed.

Lemma rstrip_idem (s : string) : rstrip (rstrip s) = rstrip s.
Proof.
  induction s as [|c s IH]; [reflexivity|]. rewrite rstrip_cons.
  destruct (rstrip s) as [|d r] eqn:E.
  - destruct (isspace c) eqn:Ec; [reflexivity|]. rewrite rstrip_cons. cbn [rstrip]. now rewrite Ec.
  - rewrite rstrip_cons. now rewrite IH.
Qed.

Lemma rstrip_head (c : ascii) (s : string) :
  isspace c = false -> exists r, rstrip (String c s) = String c r.
Proof.
  intros H. cbn [rstrip]. destruct (rstrip s) as [|d r].
  - rewrite H. now exists EmptyString.
  - now exists (String d r).
Qed.

Lemma lstrip_rstrip (s : string) : lstrip (rstrip (lstrip s)) = rstrip (lstrip s).
Proof.
  pose proof (lstrip_head s) as H. destruct (lstrip s) as [|c x]; [reflexivity|].
  destruct (rstrip_head c x H) as [r ->]. cbn [lstrip]. now rewrite H.
Qed.

Lemma strip_idem (s : string) : strip (strip s) = strip s.
Proof. unfold strip. now rewrite lstrip_rstrip, rstrip_idem. Qed.

Lemma group_or_stripped (m : option string) (placeholder : string) :
  strip placeholder = placeholder -> strip (group_or m placeholder) = group_or m placeholder.
Proof. intros H. destruct m as [g|]; simpl; [apply strip_idem | exact H]. Qed.

(** The meal name, the nutrition text and the assessment text never
    start or end with white space, whether extracted or placeholders. *)
Theorem fields_are_stripped (text : string) :
  strip (meal_name_of text) = meal_name_of text /\
  strip (nutrition_text_of text) = nutrition_text_of text /\
  strip (assessment_text_of text) = assessment_text_of text.
Proof.
  repeat split; apply group_or_stripped; reflexivity.
Qed.

Lemma all_chars_lstrip (f : ascii -> bool) (s : string) :
  all_chars f s = true -> all_chars f (lstrip s) = true.
Proof.
  induction s as [|c s IH]; [easy|]. cbn [lstrip all_chars]. intros H.
  destruct (isspace c); [|exact H]. apply andb_prop in H as [_ H]. now apply IH.
Qed.

Lemma all_chars_rstrip (f : ascii -> bool) (s : string) :
  all_chars f s = true -> all_chars f (rstrip s) = true.
Proof.
  induction s as [|c s IH]; [easy|]. cbn [rstrip all_chars]. intros H.
  apply andb_prop in H as [Hc Hs]. specialize (IH Hs).
  destruct (rstrip s) as [|d r].
  - destruct (isspace c); [reflexivity|]. cbn [all_chars]. now rewrite Hc.
  - cbn [all_chars] in IH |- *. now rewrite Hc, IH.
Qed.

Lemma all_chars_strip (f : ascii -> bool) (s : string) :
  all_chars f s = true -> all_chars f (strip s) = true.
Proof. intros H. unfold strip. now apply all_chars_rstrip, all_chars_lstrip. Qed.

Lemma dot_star_one_line (s : string) : one_line (dot_star s) = true.
Proof.
  unfold one_line. induction s as [|c s IH]; [reflexivity|]. cbn [dot_star].
  destruct (Ascii.eqb c newline) eqn:E; [reflexivity|].
  cbn [all_chars]. unfold not_newline at 1. now rewrite E, IH.
Qed.

(** The meal name is always a single line: it never holds a line feed. *)
Theorem meal_name_one_line (text : string) : one_line (meal_name_of text) = true.
Proof.
  unfold meal_name_of, meal_name_match.
  destruct (search_after meal_heading text) as [r|]; [|reflexivity].
  cbn [group_or]. apply all_chars_strip, dot_star_one_line.
Qed.

Lemma strip_blank (s : string) : lstrip s = "" -> strip s = "".
Proof. intros H. unfold strip. now rewrite H. Qed.

(** A heading that is there but followed by white space only gives the
    empty text, not the placeholder: a meal whose assessment section is
    empty scores 0, while a meal without the section scores 1. *)
Theorem empty_section_scores_zero (text : string) (n : nat) :
  first_at "## Healthiness Assessment" text n = true ->
  lstrip (drop (n + 25) text) = "" ->
  assessment_text_of text = "" /\
  calculate_meal_score (assessment_text_of text) = 0%Z.
Proof.
  intros H Hb.
  assert (E : assessment_text_of text = "").
  { unfold assessment_text_of, assessment_match, assessment_heading.
    rewrite (search_after_first _ _ _ H). cbn [group_or String.length].
    rewrite skip_nl_skip_ws, strip_lstrip. now apply strip_blank. }
  now rewrite E.
Qed.

Lemma empty_section_scores_zero_witness :
  calculate_meal_score
    (assessment_text_of ("## Meal Name" ++ nl ++ "Soup" ++ nl
                         ++ "## healthiness assessment" ++ nl)) = 0%Z.
Proof.
  apply (empty_section_scores_zero
           ("## Meal Name" ++ nl ++ "Soup" ++ nl ++ "## healthiness assessment" ++ nl) 18);
    vm_compute; reflexivity.
Defined.

End CheckerFields.

(** ** The totals and the history of checked meals *)

Section ScoreHistory.
Import PyStr app reference props database.

Lemma sum_from (l : list Z) (z : Z) :
  fold_right Z.add z l = (fold_right Z.add 0%Z l + z)%Z.
Proof. induction l as [|x l IH]; simpl; [lia | rewrite IH; lia]. Qed.

Lemma scores_snoc (f : checked_meal -> bool) (rows : list checked_meal) (row : checked_meal) :
  fold_right Z.add 0%Z (assigned_score <$> List.filter f (rows ++ [row])) =
  (fold_right Z.add 0%Z (assigned_score <$> List.filter f rows)
   + (if f row then assigned_score row else 0))%Z.
Proof.
  rewrite List.filter_app, fmap_app, fold_right_app, sum_from.
  f_equal. cbn [List.filter]. destruct (f row); cbn; lia.
Qed.

Lemma db_eta (d : db) : {| users := users d; checked_meals := checked_meals d |} = d.
Proof. now destruct d. Qed.

Lemma history_after_checker (o1 o2 : outcome) (now uid : Z) (filename text : string)
    (d : db) (x : Z) :
  history_sum (fst (checker o1 o2 now uid filename text d)) x =
  (history_sum d x +
   match o1 with
   | Commit => if (uid =? x)%Z then calculate_meal_score (assessment_text_of text) else 0
   | SqliteError => 0
   end)%Z.
Proof.
  unfold history_sum. destruct o1, o2; cbn [checker add_checked_meal update_user_score fst checked_meals];
    rewrite ?scores_snoc; cbn [user_id assigned_score]; lia.
Qed.

Lemma users_after_checker (o1 o2 : outcome) (now uid : Z) (filename text : string) (d : db) :
  users (fst (checker o1 o2 now uid filename text d)) =
  match o2 with
  | Commit => alter (add_points (calculate_meal_score (assessment_text_of text))) uid (users d)
  | SqliteError => users d
  end.
Proof. now destruct o1, o2. Qed.

(** When the insert and the update have the same fate, both committed or
    both failed, every user's total stays the sum of the scores of that
    user's logged meals. *)
Theorem checker_keeps_totals (o : outcome) (now uid : Z) (filename text : string) (d : db) :
  consistent d -> consistent (fst (checker o o now uid filename text d)).
Proof.
  intros H x u'. rewrite users_after_checker, history_after_checker.
  destruct o.
  - destruct (decide (uid = x)) as [<-|Hne].
    + rewrite lookup_alter_eq, Z.eqb_refl.
      destruct (users d !! uid) as [u|] eqn:E; [|discriminate].
      intros [= <-]. cbn [add_points total_health_score]. rewrite (H uid u E). reflexivity.
    + rewrite lookup_alter_ne by exact Hne. intros Hx.
      apply Z.eqb_neq in Hne. rewrite Hne, (H x u' Hx). lia.
  - intros Hx. rewrite (H x u' Hx). lia.
Qed.

Lemma checker_keeps_totals_witness :
  consistent (fst (checker Commit Commit 1730000000 1 "meal.jpg" samples.answer_complete
                     {| users := {[ 1%Z := add_points (-7) samples.ana ]};
                        checked_meals := [] |})).
Proof.
  apply checker_keeps_totals. intros uid u H.
  cbn [users] in H. apply lookup_singleton_Some in H as [<- <-]. reflexivity.
Defined.

(** The two writes are not tied together: when exactly one of them
    fails, the total of the user and the history drift apart by the
    score of the meal, in the direction of the write that committed. *)
Theorem checker_one_write_fails (now uid : Z) (filename text : string) (d : db) (u : user) :
  consistent d -> users d !! uid = Some u ->
  total_health_score <$>
    users (fst (checker SqliteError Commit now uid filename text d)) !! uid =
  Some (history_sum (fst (checker SqliteError Commit now uid filename text d)) uid
        + calculate_meal_score (assessment_text_of text))%Z /\
  total_health_score <$>
    users (fst (checker Commit SqliteError now uid filename text d)) !! uid =
  Some (history_sum (fst (checker Commit SqliteError now uid filename text d)) uid
        - calculate_meal_score (assessment_text_of text))%Z.
Proof.
  intros H Hu. rewrite !users_after_checker, !history_after_checker.
  rewrite lookup_alter_eq, Hu, Z.eqb_refl. cbn [fmap option_fmap option_map add_points total_health_score].
  rewrite (H uid u Hu). split; f_equal; lia.
Qed.

Lemma checker_one_write_fails_witness :
  total_health_score <$>
    users (fst (checker SqliteError Commit 1730000000 1 "meal.jpg" samples.answer_complete
                  {| users := {[ 1%Z := add_points (-7) samples.ana ]};
                     checked_meals := [] |})) !! 1%Z =
  Some (-6)%Z.
Proof.
  apply (checker_one_write_fails 1730000000 1 "meal.jpg" samples.answer_complete
           {| users := {[ 1%Z := add_points (-7) samples.ana ]}; checked_meals := [] |}
           (add_points (-7) samples.ana)).
  - intros uid u H. cbn [users] in H. apply lookup_singleton_Some in H as [<- <-]. reflexivity.
  - reflexivity.
Defined.

(** An update for an id that has no row commits and answers [True]
    although nothing changed. *)
Theorem update_unknown_user (uid points : Z) (d : db) :
  users d !! uid = None -> update_user_score Commit uid points d = (d, true).
Proof.
  intros H. unfold update_user_score.
  assert (E : alter (add_points points) uid (users d) = users d).
  { apply map_eq. intros x. destruct (decide (uid = x)) as [<-|Hne].
    - now rewrite lookup_alter_eq, H.
    - now rewrite lookup_alter_ne. }
  now rewrite E, db_eta.
Qed.

Lemma update_unknown_user_witness :
  update_user_score Commit 2 5 samples.one_user = (samples.one_user, true).
Proof. apply update_unknown_user. reflexivity. Defined.




(** Whatever happens to the two writes, a check touches nothing but the
    total of its own user and the end of the history: the other users, the
    name, password hash, age and conditions of the user, and the rows
    logged before are unchanged, and no user appears or disappears. *)
Theorem checker_frame (o1 o2 : outcome) (now uid : Z) (filename text : string) (d : db) :
  (forall other, other <> uid ->
     users (fst (checker o1 o2 now uid filename text d)) !! other = users d !! other) /\
  (forall x, is_Some (users (fst (checker o1 o2 now uid filename text d)) !! x) <->
             is_Some (users d !! x)) /\
  (forall u', users (fst (checker o1 o2 now uid filename text d)) !! uid = Some u' ->
     exists u, users d !! uid = Some u /\
       username u' = username u /\ password_hash u' = password_hash u /\
       age u' = age u /\ health_conditions u' = health_conditions u) /\
  (exists new, checked_meals (fst (checker o1 o2 now uid filename text d)) =
                 (checked_meals d ++ new)%list /\ length new <= 1).
Proof.
  rewrite users_after_checker. repeat split.
  - intros other Hne. destruct o2; [|reflexivity]. now rewrite lookup_alter_ne.
  - destruct o2; [|easy]. rewrite lookup_alter_is_Some. easy.
  - destruct o2; [|easy]. rewrite lookup_alter_is_Some. easy.
  - intros u' Hu. destruct o2.
    + rewrite lookup_alter_eq in Hu. destruct (users d !! uid) as [u|]; [|discriminate].
      injection Hu as <-. now exists u.
    + now exists u'.
  - destruct o1.
    + rewrite checker_rows. eexists. split; [reflexivity | simpl; lia].
    + exists []. split; [|simpl; lia]. rewrite app_nil_r. now destruct o2.
Qed.

Lemma checker_frame_witness :
  users (fst (checker Commit Commit 1730000000 2 "meal.jpg" samples.answer_complete
                samples.one_user)) !! 1%Z = Some samples.ana.
Proof.
  destruct (checker_frame Commit Commit 1730000000 2 "meal.jpg" samples.answer_complete
              samples.one_user) as (H & _).
  rewrite (H 1%Z); [reflexivity | discriminate].
Defined.

End ScoreHistory.

(** ** Accounts *)

Section Accounts.
Import PyStr props database.

Lemma existsb_find {A} (f : A -> bool) (l : list A) :
  existsb f l = match List.find f l with Some _ => true | None => false end.
Proof. induction l as [|x l IH]; simpl; [reflexivity|]. now destruct (f x). Qed.

Lemma find_name_some (m : gmap Z user) (name : string) (i : Z) (u : user) :
  List.find (has_name name) (map_to_list m) = Some (i, u) ->
  m !! i = Some u /\ username u = name.
Proof.
  intros H. apply List.find_some in H as [Hin Hf].
  apply list_elem_of_In, elem_of_map_to_list in Hin.
  unfold has_name in Hf. apply String.eqb_eq in Hf. now split.
Qed.

Lemma find_name_none (m : gmap Z user) (name : string) :
  List.find (has_name name) (map_to_list m) = None <->
  (forall i u, m !! i = Some u -> username u <> name).
Proof.
  split.
  - intros H i u Hu E.
    assert (G : has_name name (i, u) = false).
    { apply (List.find_none _ _ H (i, u)).
      apply list_elem_of_In, elem_of_map_to_list. exact Hu. }
    unfold has_name in G. cbn [snd] in G. rewrite E, String.eqb_refl in G. discriminate.
  - intros H. destruct (List.find (has_name name) (map_to_list m)) as [[i u]|] eqn:E;
      [|reflexivity].
    apply find_name_some in E as [Hin Hf]. now destruct (H i u Hin).
Qed.

Lemma find_name_unique (d : db) (name : string) (i : Z) (u : user) :
  unique_usernames d -> users d !! i = Some u -> username u = name ->
  List.find (has_name name) (map_to_list (users d)) = Some (i, u).
Proof.
  intros Hq Hu Hn.
  destruct (List.find (has_name name) (map_to_list (users d))) as [[j v]|] eqn:E.
  - apply find_name_some in E as [Hv Hm].
    assert (j = i) by (apply (Hq j i v u Hv Hu); congruence). subst j.
    congruence.
  - destruct (proj1 (find_name_none (users d) name) E i u Hu Hn).
Qed.

(** With unique usernames the look-up by name returns a row exactly when
    the SELECT ran and that row carries the name; when SQLite raises, the
    answer is [None] even for a name that is in the table. *)
Theorem lookup_by_name (o : outcome) (d : db) (name : string) (i : Z) (u : user) :
  unique_usernames d ->
  (get_user_by_username o d name = Some (i, u) <->
   o = Commit /\ users d !! i = Some u /\ username u = name).
Proof.
  intros Hq. unfold get_user_by_username. destruct o.
  - split.
    + intros H. split; [reflexivity|]. now apply find_name_some.
    + intros (_ & Hu & Hn). now apply find_name_unique.
  - split; [discriminate | now intros [? _]].
Qed.

Lemma lookup_by_name_witness :
  get_user_by_username Commit samples.one_user "ana" = Some (1%Z, samples.ana).
Proof.
  apply lookup_by_name.
  - intros i j u v Hi Hj _. cbn [users samples.one_user] in Hi, Hj.
    apply lookup_singleton_Some in Hi as [<- _]. now apply lookup_singleton_Some in Hj as [<- _].
  - repeat split; reflexivity.
Defined.

Lemma insert_keeps_unique (d : db) (rowid : Z) (row : user) :
  unique_usernames d -> users d !! rowid = None ->
  (forall i u, users d !! i = Some u -> username u <> username row) ->
  unique_usernames {| users := <[rowid := row]> (users d); checked_meals := checked_meals d |}.
Proof.
  intros Hq Hfresh Hfree i j u v Hi Hj Hn. cbn [users] in Hi, Hj.
  destruct (decide (rowid = i)) as [<-|Ni]; destruct (decide (rowid = j)) as [<-|Nj];
    [reflexivity | | |].
  - rewrite lookup_insert_eq in Hi. rewrite lookup_insert_ne in Hj by exact Nj.
    injection Hi as <-. now destruct (Hfree j v Hj).
  - rewrite lookup_insert_eq in Hj. rewrite lookup_insert_ne in Hi by exact Ni.
    injection Hj as <-. now destruct (Hfree i u Hi).
  - rewrite lookup_insert_ne in Hi by exact Ni. rewrite lookup_insert_ne in Hj by exact Nj.
    now apply (Hq i j u v).
Qed.

(** Whenever [add_user] returns, the usernames are still unique and every
    earlier row and the history are as before; [False] means that nothing
    was stored, [True] that the one new row, with the given name and total
    0, is there.  When hashing the password raises, [add_user] does not
    return at all. *)
Theorem add_user_keeps_usernames (hashing : option string) (o : outcome) (rowid : Z)
    (name : string) (a : option Z) (c : option string) (d d' : db) (ok : bool) :
  unique_usernames d -> users d !! rowid = None ->
  add_user hashing o rowid name a c d = Some (d', ok) ->
  hashing <> None /\
  unique_usernames d' /\
  (forall i u, users d !! i = Some u -> users d' !! i = Some u) /\
  checked_meals d' = checked_meals d /\
  (ok = false -> d' = d) /\
  (ok = true ->
     exists row, users d' !! rowid = Some row /\ username row = name /\
                 total_health_score row = 0%Z /\ Some (password_hash row) = hashing).
Proof.
  intros Hq Hfresh. unfold add_user. destruct hashing as [hashed|]; [|discriminate].
  intros [= H]. split; [discriminate|].
  destruct o.
  - rewrite existsb_find in H.
    destruct (List.find (has_name name) (map_to_list (users d))) as [[j v]|] eqn:E.
    + injection H as <- <-. repeat split; try easy.
    + injection H as <- <-.
      pose proof (proj1 (find_name_none (users d) name) E) as Hfree.
      split; [now apply insert_keeps_unique|].
      split.
      { intros i u Hu. cbn [users]. rewrite lookup_insert_ne; [exact Hu|].
        intros <-. congruence. }
      split; [reflexivity|]. split; [discriminate|]. intros _.
      eexists. cbn [users]. rewrite lookup_insert_eq. repeat split.
  - injection H as <- <-. repeat split; try easy.
Qed.

Lemma add_user_keeps_usernames_witness :
  add_user (Some "$2b$12$zzzzzzzzzzzzzzzzzzzzzz") Commit 2 "ana" None None samples.one_user =
    Some (samples.one_user, false) /\
  checked_meals samples.one_user = checked_meals samples.one_user.
Proof.
  assert (E : add_user (Some "$2b$12$zzzzzzzzzzzzzzzzzzzzzz") Commit 2 "ana" None None
                samples.one_user = Some (samples.one_user, false))
    by (vm_compute; reflexivity).
  split; [exact E|].
  destruct (add_user_keeps_usernames (Some "$2b$12$zzzzzzzzzzzzzzzzzzzzzz") Commit 2 "ana"
              None None samples.one_user samples.one_user false)
    as (_ & _ & _ & H & _); [| reflexivity | exact E | exact H].
  intros i j u v Hi Hj _. cbn [users samples.one_user] in Hi, Hj.
  apply lookup_singleton_Some in Hi as [<- _]. now apply lookup_singleton_Some in Hj as [<- _].
Defined.

(** A sign-up whose hashing succeeds and whose INSERT commits, for a
    username that no row carries, stores one new row with total 0; the
    look-ups by id and by name, when their SELECT runs, then return it;
    the other rows and the history are unchanged and the usernames stay
    unique. *)
Theorem add_user_fresh (rowid : Z) (hashed name : string)
    (a : option Z) (c : option string) (d : db) :
  unique_usernames d ->
  users d !! rowid = None ->
  (forall i u, users d !! i = Some u -> username u <> name) ->
  exists d',
    add_user (Some hashed) Commit rowid name a c d = Some (d', true) /\
    get_user_by_id Commit d' rowid =
      Some {| username := name; password_hash := hashed; age := a;
              health_conditions := c; total_health_score := 0 |} /\
    get_user_by_username Commit d' name =
      Some (rowid, {| username := name; password_hash := hashed; age := a;
                      health_conditions := c; total_health_score := 0 |}) /\
    (forall other, other <> rowid ->
       get_user_by_id Commit d' other = get_user_by_id Commit d other) /\
    checked_meals d' = checked_meals d /\
    unique_usernames d'.
Proof.
  intros Hq Hfresh Hfree.
  set (row := {| username := name; password_hash := hashed; age := a;
                 health_conditions := c; total_health_score := 0 |}).
  exists {| users := <[rowid := row]> (users d); checked_meals := checked_meals d |}.
  assert (Hq' : unique_usernames
                  {| users := <[rowid := row]> (users d); checked_meals := checked_meals d |})
    by now apply insert_keeps_unique.
  split; [|split; [|split; [|split; [|split]]]].
  - unfold add_user. rewrite existsb_find.
    now rewrite (proj2 (find_name_none (users d) name) Hfree).
  - cbn [get_user_by_id users]. apply lookup_insert_eq.
  - cbn [get_user_by_username]. apply find_name_unique; [exact Hq' | | reflexivity].
    cbn [users]. apply lookup_insert_eq.
  - intros other Hne. cbn [get_user_by_id users]. now rewrite lookup_insert_ne.
  - reflexivity.
  - exact Hq'.
Qed.

Lemma add_user_fresh_witness :
  exists d',
    add_user (Some "$2b$12$zzzzzzzzzzzzzzzzzzzzzz") Commit 2 "bo" (Some 30%Z) None
      samples.one_user = Some (d', true) /\
    get_user_by_username Commit d' "bo" =
      Some (2%Z, {| username := "bo"; password_hash := "$2b$12$zzzzzzzzzzzzzzzzzzzzzz";
                    age := Some 30%Z; health_conditions := None;
                    total_health_score := 0 |}).
Proof.
  destruct (add_user_fresh 2 "$2b$12$zzzzzzzzzzzzzzzzzzzzzz" "bo" (Some 30%Z) None
              samples.one_user) as (d' & H1 & _ & H2 & _).
  - intros i j u v Hi Hj _. cbn [users samples.one_user] in Hi, Hj.
    apply lookup_singleton_Some in Hi as [<- _]. now apply lookup_singleton_Some in Hj as [<- _].
  - reflexivity.
  - intros i u Hu. cbn [users samples.one_user] in Hu.
    apply lookup_singleton_Some in Hu as [_ <-]. discriminate.
  - exists d'. split; assumption.
Defined.

(** A check never breaks the uniqueness of the usernames. *)
Theorem checker_keeps_usernames (o1 o2 : outcome) (now uid : Z) (filename text : string)
    (d : db) :
  unique_usernames d ->
  unique_usernames (fst (app.checker o1 o2 now uid filename text d)).
Proof.
  intros Hq i j u v Hi Hj Hn.
  assert (G : forall k w, users (fst (app.checker o1 o2 now uid filename text d)) !! k = Some w ->
                exists w0, users d !! k = Some w0 /\ username w = username w0).
  { intros k w. rewrite users_after_checker. destruct o2; [|now exists w].
    destruct (decide (uid = k)) as [<-|Hne].
    - rewrite lookup_alter_eq. destruct (users d !! uid) as [w0|]; [|discriminate].
      intros [= <-]. now exists w0.
    - rewrite lookup_alter_ne by exact Hne. now exists w. }
  destruct (G i u Hi) as (u0 & Hu0 & Eu). destruct (G j v Hj) as (v0 & Hv0 & Ev).
  apply (Hq i j u0 v0 Hu0 Hv0). congruence.
Qed.

Lemma checker_keeps_usernames_witness :
  unique_usernames (fst (app.checker Commit Commit 1730000000 1 "meal.jpg"
                           samples.answer_complete samples.one_user)).
Proof.
  apply checker_keeps_usernames.
  intros i j u v Hi Hj _. cbn [users samples.one_user] in Hi, Hj.
  apply lookup_singleton_Some in Hi as [<- _]. now apply lookup_singleton_Some in Hj as [<- _].
Defined.

End Accounts.

(** ** The cleaned ingredient and instruction lines *)

Section CleanedLines.
Import PyStr PyRe app reference props.

Lemma split_nl_nonempty (s : string) : split_nl s <> [].
Proof.
  induction s as [|c s IH]; [discriminate|]. cbn [split_nl].
  destruct (Ascii.eqb c newline); [discriminate|].
  destruct (split_nl s); [contradiction | discriminate].
Qed.

Lemma split_nl_one_line (s : string) : one_line s = true -> split_nl s = [s].
Proof.
  unfold one_line. induction s as [|c s IH]; [reflexivity|].
  cbn [all_chars split_nl]. intros H. apply andb_prop in H as [Hc Hs].
  unfold not_newline in Hc. apply negb_true_iff in Hc. rewrite Hc, (IH Hs). reflexivity.
Qed.

Lemma split_nl_pieces (s : string) : List.Forall (fun w => one_line w = true) (split_nl s).
Proof.
  induction s as [|c s IH]; [repeat constructor|]. cbn [split_nl].
  destruct (Ascii.eqb c newline) eqn:E.
  - constructor; [reflexivity | exact IH].
  - destruct (split_nl s) as [|w ws]; [repeat constructor; unfold one_line; cbn;
      unfold not_newline; now rewrite E|].
    inversion IH as [|? ? Hw Hws]; subst. constructor; [|exact Hws].
    unfold one_line in *. cbn [all_chars]. unfold not_newline at 1. now rewrite E, Hw.
Qed.

Lemma split_nl_line (w rest : string) :
  one_line w = true -> split_nl (w ++ nl ++ rest) = w :: split_nl rest.
Proof.
  unfold one_line. induction w as [|c w IH]; intros H.
  - reflexivity.
  - cbn [all_chars] in H. apply andb_prop in H as [Hc Hw].
    unfold not_newline in Hc. apply negb_true_iff in Hc.
    cbn [String.append split_nl]. cbn [String.append] in IH. now rewrite Hc, (IH Hw).
Qed.

(** Splitting undoes joining when no piece holds a line feed. *)
Lemma split_nl_join (l : list string) :
  l <> [] -> List.Forall (fun w => one_line w = true) l -> split_nl (join_nl l) = l.
Proof.
  induction l as [|w l IH]; [easy|]. intros _ H.
  inversion H as [|? ? Hw Hl]; subst. destruct l as [|w' l].
  - now apply split_nl_one_line.
  - change (join_nl (w :: w' :: l)) with (w ++ nl ++ join_nl (w' :: l)).
    rewrite (split_nl_line _ _ Hw), IH; [reflexivity | discriminate | exact Hl].
Qed.

Lemma all_chars_lstrip_chars (f : ascii -> bool) (chars s : string) :
  all_chars f s = true -> all_chars f (lstrip_chars chars s) = true.
Proof.
  induction s as [|c s IH]; [easy|]. cbn [lstrip_chars all_chars]. intros H.
  destruct (mem_char c chars); [|exact H]. apply andb_prop in H as [_ H]. now apply IH.
Qed.

Lemma lstrip_chars_no_leading (chars s : string) :
  no_leading chars (lstrip_chars chars s) = true.
Proof.
  induction s as [|c s IH]; [reflexivity|]. cbn [lstrip_chars].
  destruct (mem_char c chars) eqn:E; [exact IH|]. cbn [no_leading]. now rewrite E.
Qed.

Lemma clean_lines_lines (chars v : string) :
  split_nl (clean_lines chars v) =
  (fun l => lstrip_chars chars (strip l)) <$> split_nl v.
Proof.
  unfold clean_lines. apply split_nl_join.
  - pose proof (split_nl_nonempty v). destruct (split_nl v); [contradiction | discriminate].
  - pose proof (split_nl_pieces v) as H. induction H as [|w ws Hw Hws IH]; [constructor|].
    constructor; [|exact IH]. now apply all_chars_lstrip_chars, all_chars_strip.
Qed.

Lemma clean_field_lines (key chars v : string) (d : gmap string string) :
  clean_field key chars d !! key = Some v ->
  List.Forall (fun line => no_leading chars line = true) (split_nl v).
Proof.
  unfold clean_field, has. destruct (d !! key) as [v0|] eqn:E.
  - destruct (truthy v0) eqn:T.
    + rewrite lookup_insert_eq. intros [= <-]. cbn [default].
      rewrite clean_lines_lines. generalize (split_nl v0) as l.
      induction l as [|w l IH]; [constructor|].
      constructor; [apply lstrip_chars_no_leading | exact IH].
    + rewrite E. intros [= <-]. destruct v0; [repeat constructor | discriminate].
  - rewrite E. discriminate.
Qed.

(** In every parsed record no ingredient line starts with a hyphen, an
    asterisk or a space, and no instruction line starts with a digit, a
    full stop, an asterisk or a space: the list markers of the answer are
    gone, together with any leading number of the line itself. *)
Theorem lines_lose_markers (t : string) (r : gmap string string) (v : string) :
  In r (parsed_recipes t) ->
  (r !! "ingredients" = Some v ->
   List.Forall (fun line => no_leading "-* " line = true) (split_nl v)) /\
  (r !! "instructions" = Some v ->
   List.Forall (fun line => no_leading "0123456789.* " line = true) (split_nl v)).
Proof.
  intros H. apply parsed_recipes_in in H as (b & -> & _).
  unfold post_process, add_search_url.
  set (d1 := clean_field "ingredients" "-* " (scan_block b)).
  set (d2 := clean_field "instructions" "0123456789.* " d1).
  assert (G : forall k, k <> "youtube_search_url" ->
            match d2 !! "youtube_search_terms" with
            | Some search_terms =>
                if truthy search_terms
                then <["youtube_search_url" :=
                         "https://www.youtube.com/results?search_query="
                         ++ urllib_parse.quote_plus search_terms]> d2
                else d2
            | None => d2
            end !! k = d2 !! k).
  { intros k Hk. destruct (d2 !! "youtube_search_terms") as [s|]; [|reflexivity].
    destruct (truthy s); [|reflexivity]. now rewrite lookup_insert_ne. }
  rewrite !G by discriminate. split; intros Hv.
  - unfold d2 in Hv. rewrite clean_field_other in Hv by discriminate.
    now apply (clean_field_lines "ingredients" "-* " v (scan_block b)).
  - now apply (clean_field_lines "instructions" "0123456789.* " v d1).
Qed.

Lemma lines_lose_markers_witness :
  List.Forall
    (fun r => forall v, r !! "instructions" = Some v ->
       List.Forall (fun line => no_leading "0123456789.* " line = true) (split_nl v))
    (parsed_recipes samples.two_recipes).
Proof.
  apply List.Forall_forall. intros r H v.
  apply (lines_lose_markers samples.two_recipes r v H).
Defined.

End CleanedLines.

(** ** Well-formed blocks are found *)

Section WellFormedBlocks.
Import PyStr PyRe app reference props.

Lemma hyphen_lower (c : ascii) : Ascii.eqb "-" (lower_char c) = Ascii.eqb "-" c.
Proof. destruct c as [[] [] [] [] [] [] [] []]; reflexivity. Qed.

Lemma imatch_hyphens (s : string) :
  imatch "---" s = if startswith "---" s then Some (drop 3 s) else None.
Proof.
  destruct s as [|c1 [|c2 [|c3 s]]]; cbn [imatch startswith drop]; unfold ieq;
    change (lower_char "-") with "-"%char; rewrite ?hyphen_lower;
    repeat match goal with
           | |- context [Ascii.eqb "-" ?c] => destruct (Ascii.eqb "-" c)
           end; reflexivity.
Qed.

Lemma marker_hyphens (word s : string) :
  startswith "---" s = false -> marker word s = None.
Proof. intros H. unfold marker. now rewrite imatch_hyphens, H. Qed.

Lemma startswith_app_l (p s t : string) :
  startswith p s = true -> startswith p (s ++ t) = true.
Proof.
  revert s. induction p as [|a p IH]; intros [|b s]; cbn; try easy.
  intros H. apply andb_prop in H as [Hab Hp]. now rewrite Hab, (IH _ Hp).
Qed.

(** Inside a body without three consecutive hyphens the end marker
    matches nowhere before the real one. *)
Lemma end_marker_not_in_body (c : ascii) (body post : string) :
  contains "---" (String c body) = false ->
  marker "RECIPE END" (String c body ++ "--- RECIPE END ---" ++ post) = None.
Proof.
  intros H.
  assert (Hs : startswith "---" (String c body) = false).
  { destruct (startswith "---" (String c body)) eqn:E; [|reflexivity].
    apply contains_startswith in E. congruence. }
  destruct body as [|c2 [|c3 body]].
  - destruct (Ascii.eqb "-" c) eqn:E.
    + apply Ascii.eqb_eq in E. subst c. vm_compute. reflexivity.
    + apply marker_hyphens. cbn [String.append startswith]. now rewrite E.
  - destruct (Ascii.eqb "-" c) eqn:E;
      [|apply marker_hyphens; cbn [String.append startswith]; now rewrite E].
    destruct (Ascii.eqb "-" c2) eqn:E2;
      [|apply marker_hyphens; cbn [String.append startswith]; rewrite E2; apply andb_false_r].
    apply Ascii.eqb_eq in E, E2. subst c c2. vm_compute. reflexivity.
  - apply marker_hyphens. cbn [String.append startswith] in Hs |- *. exact Hs.
Qed.

Lemma lazy_body_found (body post : string) :
  contains "---" body = false ->
  lazy_body (body ++ "--- RECIPE END ---" ++ post) = Some (body, post).
Proof.
  induction body as [|c body IH]; intros H.
  - destruct post; reflexivity.
  - assert (Hb : contains "---" body = false).
    { cbn [contains] in H. now apply orb_false_elim in H as [_ H]. }
    change ((String c body ++ "--- RECIPE END ---" ++ post))
      with (String c (body ++ "--- RECIPE END ---" ++ post)).
    cbn [lazy_body].
    change (String c (body ++ "--- RECIPE END ---" ++ post))
      with (String c body ++ "--- RECIPE END ---" ++ post).
    now rewrite (end_marker_not_in_body c body post H), (IH Hb).
Qed.

Lemma findall_skip (pre rest : string) :
  contains "-" pre = false -> findall (pre ++ rest) = findall rest.
Proof.
  induction pre as [|c pre IH]; intros H; [reflexivity|].
  cbn [contains startswith] in H. apply orb_false_elim in H as [Hc Hp].
  rewrite andb_true_r in Hc.
  change (String c pre ++ rest) with (String c (pre ++ rest)).
  rewrite findall_eq. unfold recipe_match. rewrite marker_hyphens; [now apply IH|].
  cbn [startswith]. now rewrite Hc.
Qed.

(** A block between the two markers is always found: after a preamble
    without hyphens, a body without three consecutive hyphens is returned
    whole and the search goes on after the end marker; the block gives a
    record exactly when it is accepted. *)
Theorem well_formed_block (pre body post : string) :
  contains "-" pre = false -> contains "---" body = false ->
  findall (pre ++ "--- RECIPE START ---" ++ body ++ "--- RECIPE END ---" ++ post) =
    body :: findall post /\
  parsed_recipes (pre ++ "--- RECIPE START ---" ++ body ++ "--- RECIPE END ---" ++ post) =
    ((if accepted (scan_block body) then [post_process (scan_block body)] else [])
     ++ parsed_recipes post)%list.
Proof.
  intros Hp Hb.
  assert (E : findall (pre ++ "--- RECIPE START ---" ++ body ++ "--- RECIPE END ---" ++ post) =
              body :: findall post).
  { rewrite (findall_skip _ _ Hp), findall_eq. unfold recipe_match.
    assert (M : marker "RECIPE START"
                  ("--- RECIPE START ---" ++ body ++ "--- RECIPE END ---" ++ post) =
                Some (body ++ "--- RECIPE END ---" ++ post)).
    { destruct (body ++ "--- RECIPE END ---" ++ post); reflexivity. }
    now rewrite M, (lazy_body_found body post Hb). }
  split; [exact E|].
  rewrite !parsed_recipes_filter, E. cbn [fmap list_fmap List.filter].
  now destruct (accepted (scan_block body)).
Qed.

Lemma well_formed_block_witness :
  findall ("Here you go:" ++ nl ++ "--- RECIPE START ---"
           ++ (nl ++ "Meal Name: Toast" ++ nl ++ "Ingredients:" ++ nl ++ "- bread" ++ nl)
           ++ "--- RECIPE END ---" ++ " Enjoy!") =
  [nl ++ "Meal Name: Toast" ++ nl ++ "Ingredients:" ++ nl ++ "- bread" ++ nl].
Proof.
  apply (well_formed_block ("Here you go:" ++ nl)
           (nl ++ "Meal Name: Toast" ++ nl ++ "Ingredients:" ++ nl ++ "- bread" ++ nl)
           " Enjoy!"); vm_compute; reflexivity.
Defined.

End WellFormedBlocks.

(** ** From the meal checker to the home page *)

Section HomePage.
Import PyStr PyRe app reference props database.

Lemma healthy_name (recent_checks : list checked_meal) (row : checked_meal) :
  In row recent_checks -> (0 < assigned_score row)%Z -> meal_name row <> "" ->
  meal_name row ∈ healthy_meal_names recent_checks.
Proof.
  intros Hin Hs Hn. unfold healthy_meal_names.
  apply elem_of_list_to_set, list_elem_of_fmap. exists row. split; [reflexivity|].
  apply list_elem_of_In, filter_In. split; [exact Hin|].
  apply Z.ltb_lt in Hs. apply truthy_nonempty in Hn. now rewrite Hs, Hn.
Qed.

Lemma listing_all (listing : list string) (name : string) :
  length listing <= 3 -> name ∈ listing -> name ∈ prompt_names listing.
Proof. intros Hl Hin. unfold prompt_names. now rewrite take_ge. Qed.

(** A meal whose analysis held no assessment section is logged with
    score 1, so that once it is among the recent checks its name, were it
    the placeholder for a failed extraction, is among the names of the
    meals the user is said to have enjoyed.  The route passes on the first
    three names of the unordered set: the name reaches the prompt for
    certain when at most three names qualify. *)
Theorem unparsed_meal_is_healthy (o2 : outcome) (now uid : Z) (filename text : string)
    (d : db) (recent_checks : list checked_meal) (row : checked_meal) :
  absent "## Healthiness Assessment" text = true ->
  last (checked_meals (fst (checker Commit o2 now uid filename text d))) = Some row ->
  In row recent_checks ->
  meal_name_of text <> "" ->
  meal_name_of text ∈ healthy_meal_names recent_checks /\
  (absent "## Meal Name" text = true -> meal_name_of text = "Unknown Meal (Parsing Failed)") /\
  (forall listing : list string,
     (forall name, name ∈ listing <-> name ∈ healthy_meal_names recent_checks) ->
     length listing <= 3 ->
     meal_name_of text ∈ prompt_names listing).
Proof.
  intros Ha Hl Hin Hn. rewrite checker_rows, last_snoc in Hl. injection Hl as <-.
  assert (G : meal_name_of text ∈ healthy_meal_names recent_checks).
  { apply (healthy_name recent_checks _ Hin); cbn [assigned_score meal_name].
    - rewrite (assessment_absent text Ha). vm_compute. reflexivity.
    - exact Hn. }
  split; [exact G|]. split.
  - intros Hm. unfold meal_name_of, meal_name_match.
    apply (group_or_absent _ _ _ (fun r => dot_star (skip_nl (skip_ws r))) Hm).
  - intros listing Hsame Hlen. apply listing_all; [exact Hlen|]. now apply Hsame.
Qed.

Lemma unparsed_meal_is_healthy_witness :
  "Unknown Meal (Parsing Failed)" ∈
  healthy_meal_names
    (checked_meals (fst (checker Commit Commit 1730000000 1 "meal.jpg"
                           "The picture is too dark to tell." samples.one_user))).
Proof.
  apply (unparsed_meal_is_healthy Commit 1730000000 1 "meal.jpg"
           "The picture is too dark to tell." samples.one_user _
           {| user_id := 1; checked_at := 1730000000;
              meal_name := "Unknown Meal (Parsing Failed)";
              estimated_nutrition := "Nutrition info could not be extracted.";
              health_assessment := "Assessment could not be extracted.";
              assigned_score := 1; image_filename := Some "meal.jpg" |}).
  - vm_compute. reflexivity.
  - vm_compute. reflexivity.
  - vm_compute. now left.
  - vm_compute. discriminate.
Defined.

End HomePage.
